(** * movie_crawler.py: a shallow embedding and its verified properties

    The development follows the layout of [src/movie_crawler.py]:

    - [Py]: the Python values the script manipulates: [str] as a sequence of
      Unicode code points, the insertion-ordered [dict], exceptions;
    - [Url]: [urllib.parse.urljoin], which the script imports;
    - [Soup]: the BeautifulSoup tree and the queries the script calls on it
      ([find], [find_all], [select], [select_one], [get_text], [has_attr]);
    - the script itself: [fetch], [parse_movie_card], [scrape_pages] and
      the row projection of [save_csv];
    - sample markup and a sample site, on which the properties are run;
    - the lemmas and the theorems, one per property of the specification. *)

From Stdlib Require Import List NArith ZArith Bool Lia String Ascii.
From Stdlib Require Import DecimalString Sorted.
From Stdlib Require DecimalZ DecimalPos.
Import ListNotations.

Set Implicit Arguments.
Set Warnings "-register-all".

(* ===================================================================== *)
(** * Python values *)
(* ===================================================================== *)

Module Py.

(** A Python [str] is a sequence of Unicode code points. *)
Definition char := N.
Definition str := list char.

(** [lit "abc"] is the [str] whose code points are those of the literal. *)
Definition lit (s : string) : str := map N_of_ascii (list_ascii_of_string s).

Definition char_eqb (a b : char) : bool := N.eqb a b.

Fixpoint str_eqb (a b : str) : bool :=
  match a, b with
  | [], [] => true
  | x :: a', y :: b' => char_eqb x y && str_eqb a' b'
  | _, _ => false
  end.

(** Truth value of a [str]: non-empty. *)
Definition nonempty (s : str) : bool :=
  match s with [] => false | _ :: _ => true end.

(** [x in l] for a list of strings. *)
Definition str_in (x : str) (l : list str) : bool := existsb (str_eqb x) l.

(** [c in s] for a character. *)
Definition char_in (c : char) (s : str) : bool := existsb (char_eqb c) s.

(** [str.isspace] on one code point: the Unicode whitespace table. *)
Definition isspace (c : char) : bool :=
  ((9 <=? c) && (c <=? 13) || (28 <=? c) && (c <=? 32)
   || (c =? 133) || (c =? 160) || (c =? 5760)
   || (8192 <=? c) && (c <=? 8202)
   || (c =? 8232) || (c =? 8233) || (c =? 8239) || (c =? 8287)
   || (c =? 12288))%N.

(** [s.lstrip(chars)], [s.rstrip(chars)], [s.strip(chars)] for a predicate
    on characters; [strip] is the default (whitespace) form. *)
Fixpoint lstrip_by (p : char -> bool) (s : str) : str :=
  match s with
  | [] => []
  | c :: r => if p c then lstrip_by p r else s
  end.

Definition rstrip_by (p : char -> bool) (s : str) : str :=
  rev (lstrip_by p (rev s)).

Definition strip_by (p : char -> bool) (s : str) : str :=
  rstrip_by p (lstrip_by p s).

Definition strip (s : str) : str := strip_by isspace s.

(** [s.replace(a, b)] for single characters [a], [b]. *)
Definition replace_char (a b : char) (s : str) : str :=
  map (fun c => if char_eqb c a then b else c) s.

(** [s.replace(a, "")] for a single character [a]. *)
Definition remove_char (a : char) (s : str) : str :=
  filter (fun c => negb (char_eqb c a)) s.

(** [sep.join(l)]. *)
Fixpoint join (sep : str) (l : list str) : str :=
  match l with
  | [] => []
  | [x] => x
  | x :: r => x ++ sep ++ join sep r
  end.

(** [s.split(c)] for a single-character separator: never empty,
    [''.split('/') == ['']]. *)
Fixpoint split (c : char) (s : str) : list str :=
  match s with
  | [] => [[]]
  | x :: r =>
      if char_eqb x c then [] :: split c r
      else match split c r with
           | [] => [[x]]
           | w :: ws => (x :: w) :: ws
           end
  end.

(** The maximal runs of non-whitespace characters ([re.findall(r"\S+", s)]). *)
Fixpoint words_aux (cur : str) (s : str) : list str :=
  match s with
  | [] => if nonempty cur then [rev cur] else []
  | c :: r =>
      if isspace c
      then (if nonempty cur then rev cur :: words_aux [] r else words_aux [] r)
      else words_aux (c :: cur) r
  end.

Definition words (s : str) : list str := words_aux [] s.

(** [s.partition(c)]: the part before the first [c], whether [c] occurs,
    and the part after it. *)
Fixpoint partition (c : char) (s : str) : str * bool * str :=
  match s with
  | [] => ([], false, [])
  | x :: r =>
      if char_eqb x c then ([], true, r)
      else let '(a, found, b) := partition c r in (x :: a, found, b)
  end.

(** [str(i)] for an [int]. *)
Definition str_of_int (i : Z) : str := lit (NilZero.string_of_int (Z.to_int i)).

(** [list(dict.fromkeys(l))]: the distinct elements of [l] in the order of
    their first occurrence. *)
Fixpoint fromkeys_aux (seen : list str) (l : list str) : list str :=
  match l with
  | [] => []
  | x :: r =>
      if str_in x seen then fromkeys_aux seen r
      else x :: fromkeys_aux (x :: seen) r
  end.

Definition fromkeys (l : list str) : list str := fromkeys_aux [] l.

(** ** Exceptions *)

Inductive exn := ValueError | KeyError | ParserRejectedMarkup.

Inductive result (A : Type) : Type :=
| Ok (a : A)
| Raise (e : exn).
Arguments Ok {A} a.
Arguments Raise {A} e.

Definition bind {A B} (m : result A) (k : A -> result B) : result B :=
  match m with
  | Ok a => k a
  | Raise e => Raise e
  end.

(** ** Values stored in the record dictionaries, and the ordered [dict] *)

Inductive value :=
| VStr (s : str)
| VInt (z : Z).

(** Truth value: [if v:] / [if not v:]. *)
Definition truthy (v : value) : bool :=
  match v with
  | VStr s => nonempty s
  | VInt z => negb (Z.eqb z 0)
  end.

(** A [dict] keeps its items in insertion order; assigning to an existing
    key keeps the key's position. *)
Definition dict := list (str * value).

(** [d[k]] *)
Fixpoint getitem (d : dict) (k : str) : result value :=
  match d with
  | [] => Raise KeyError
  | (k', v) :: r => if str_eqb k' k then Ok v else getitem r k
  end.

(** [d[k] = v] *)
Fixpoint setitem (d : dict) (k : str) (v : value) : dict :=
  match d with
  | [] => [(k, v)]
  | (k', v') :: r =>
      if str_eqb k' k then (k', v) :: r else (k', v') :: setitem r k v
  end.

(** [d.get(k, default)] *)
Definition get_default (d : dict) (k : str) (default : value) : value :=
  match getitem d k with
  | Ok v => v
  | Raise _ => default
  end.

(** [list(d.keys())] *)
Definition keys (d : dict) : list str := map fst d.

End Py.

Import Py.

Declare Scope py_scope.
Notation "x <- m ;; k" := (bind m (fun x => k))
  (at level 61, m at next level, right associativity) : py_scope.
Open Scope py_scope.

(* ===================================================================== *)
(** * urllib.parse.urljoin *)
(* ===================================================================== *)

(** The script resolves every link with [urljoin(BASE, ...)].  The
    definitions below transcribe [urlsplit], [urlparse], [urlunsplit],
    [urlunparse] and [urljoin] of CPython's [urllib/parse.py].  Two checks
    of [urlsplit] depend on tables that are not part of this development
    (IP address syntax inside brackets, Unicode NFKC normalisation); they
    are parameters of the section. *)

Module Url.

Local Open Scope N_scope.

Definition uses_relative : list str :=
  map lit [""; "ftp"; "http"; "gopher"; "nntp"; "imap"; "wais"; "file";
           "https"; "shttp"; "mms"; "prospero"; "rtsp"; "rtspu"; "sftp";
           "svn"; "svn+ssh"; "ws"; "wss"]%string.

Definition uses_netloc : list str :=
  map lit [""; "ftp"; "http"; "gopher"; "nntp"; "telnet"; "imap"; "wais";
           "file"; "mms"; "https"; "shttp"; "snews"; "prospero"; "rtsp";
           "rtspu"; "rsync"; "svn"; "svn+ssh"; "sftp"; "nfs"; "git";
           "git+ssh"; "ws"; "wss"]%string.

Definition uses_params : list str :=
  map lit [""; "ftp"; "hdl"; "prospero"; "http"; "imap"; "https"; "shttp";
           "rtsp"; "rtspu"; "sip"; "sips"; "mms"; "sftp"; "tel"]%string.

Definition is_ascii_upper (c : char) : bool := ((65 <=? c) && (c <=? 90))%N.
Definition is_ascii_lower (c : char) : bool := ((97 <=? c) && (c <=? 122))%N.
Definition is_ascii_digit (c : char) : bool := ((48 <=? c) && (c <=? 57))%N.

(** [c.isascii() and c.isalpha()] *)
Definition is_ascii_alpha (c : char) : bool :=
  is_ascii_upper c || is_ascii_lower c.

(** [c in scheme_chars]: letters, digits, [+], [-], [.] *)
Definition scheme_char (c : char) : bool :=
  (is_ascii_alpha c || is_ascii_digit c
   || (c =? 43) || (c =? 45) || (c =? 46))%N.

(** [s.lower()] on a string of scheme characters, which are all ASCII. *)
Definition ascii_lower (s : str) : str :=
  map (fun c => if is_ascii_upper c then (c + 32)%N else c) s.

(** [_WHATWG_C0_CONTROL_OR_SPACE]: code points 0 to 32. *)
Definition c0_control_or_space (c : char) : bool := (c <=? 32)%N.

(** The first lines of [urlsplit]: strip leading C0 controls and spaces,
    then remove every tab, carriage return and newline. *)
Definition sanitize_url (url : str) : str :=
  remove_char 10 (remove_char 13 (remove_char 9
    (lstrip_by c0_control_or_space url))).

Definition sanitize_scheme (scheme : str) : str :=
  remove_char 10 (remove_char 13 (remove_char 9
    (strip_by c0_control_or_space scheme))).

(** The scheme step of [urlsplit] on an already sanitised [url]:
    [i = url.find(':')], and when [i > 0], [url[0]] is an ASCII letter and
    [url[:i]] consists of scheme characters, the scheme is
    [url[:i].lower()] and the rest is [url[i+1:]]. *)
Definition split_scheme (url : str) : option (str * str) :=
  let '(before, found, after) := partition 58 url in
  match before with
  | c0 :: _ =>
      if found && is_ascii_alpha c0 && forallb scheme_char before
      then Some (ascii_lower before, after)
      else None
  | [] => None
  end.

(** [_splitnetloc(url, 2)]: the network location runs from index 2 to the
    first of [/], [?], [#]. *)
Fixpoint span_netloc (s : str) : str * str :=
  match s with
  | [] => ([], [])
  | c :: r =>
      if ((c =? 47) || (c =? 63) || (c =? 35))%N then ([], s)
      else let '(a, b) := span_netloc r in (c :: a, b)
  end.

Definition splitnetloc2 (url : str) : str * str := span_netloc (skipn 2 url).

(** [url.split(c, 1)] when [c in url]; the pair [(url, '')] otherwise. *)
Definition split_once (c : char) (url : str) : str * str :=
  let '(a, found, b) := partition c url in
  if found then (a, b) else (url, []).

Record SplitResult := mkSplit {
  s_scheme : str; s_netloc : str; s_path : str;
  s_query : str; s_fragment : str }.

Record ParseResult := mkParse {
  p_scheme : str; p_netloc : str; p_path : str; p_params : str;
  p_query : str; p_fragment : str }.

Section Checks.

(** [_check_bracketed_netloc(netloc)] returns without raising. *)
Variable bracketed_netloc_ok : str -> bool.
(** [unicodedata.normalize('NFKC', s)] *)
Variable nfkc : str -> str.

Definition isascii (s : str) : bool := forallb (fun c => (c <? 128)%N) s.

(** [_checknetloc(netloc)] returns without raising. *)
Definition checknetloc (netloc : str) : bool :=
  if negb (nonempty netloc) || isascii netloc then true
  else
    let n := remove_char 63 (remove_char 35 (remove_char 58
               (remove_char 64 netloc))) in
    let netloc2 := nfkc n in
    if str_eqb n netloc2 then true
    else negb (existsb (fun c => char_in c netloc2) [47; 63; 35; 64; 58]%N).

Definition urlsplit (url0 scheme0 : str) : result SplitResult :=
  let url := sanitize_url url0 in
  let scheme := sanitize_scheme scheme0 in
  let '(scheme, url) :=
    match split_scheme url with
    | Some (sch, rest) => (sch, rest)
    | None => (scheme, url)
    end in
  let has_netloc := str_eqb (firstn 2 url) (lit "//") in
  let '(netloc, url) :=
    if has_netloc then splitnetloc2 url else ([], url) in
  let open_br := char_in 91 netloc in
  let close_br := char_in 93 netloc in
  if has_netloc && (open_br && negb close_br || close_br && negb open_br)
  then Raise ValueError
  else if has_netloc && open_br && close_br && negb (bracketed_netloc_ok netloc)
  then Raise ValueError
  else
    let '(url, fragment) := split_once 35 url in
    let '(url, query) := split_once 63 url in
    if checknetloc netloc
    then Ok (mkSplit scheme netloc url query fragment)
    else Raise ValueError.

(** The index of the last [/] of [url], as the pair of what precedes it and
    what starts at it. *)
Fixpoint rsplit_slash (url : str) : option (str * str) :=
  match url with
  | [] => None
  | c :: r =>
      match rsplit_slash r with
      | Some (a, b) => Some (c :: a, b)
      | None => if (c =? 47)%N then Some ([], url) else None
      end
  end.

Definition splitparams (url : str) : str * str :=
  match rsplit_slash url with
  | Some (head, tail) =>
      let '(a, found, b) := partition 59 tail in
      if found then (head ++ a, b) else (url, [])
  | None =>
      let '(a, _, b) := partition 59 url in (a, b)
  end.

Definition urlparse (url scheme : str) : result ParseResult :=
  r <- urlsplit url scheme ;;
  let '(path, params) :=
    if str_in (s_scheme r) uses_params && char_in 59 (s_path r)
    then splitparams (s_path r) else (s_path r, []) in
  Ok (mkParse (s_scheme r) (s_netloc r) path params (s_query r) (s_fragment r)).

End Checks.

Definition urlunsplit (scheme netloc url query fragment : str) : str :=
  let url :=
    if nonempty netloc
       || (nonempty scheme && str_in scheme uses_netloc
           && negb (str_eqb (firstn 2 url) (lit "//")))
    then
      let url :=
        if nonempty url && negb (str_eqb (firstn 1 url) (lit "/"))
        then lit "/" ++ url else url in
      lit "//" ++ netloc ++ url
    else url in
  let url := if nonempty scheme then scheme ++ lit ":" ++ url else url in
  let url := if nonempty query then url ++ lit "?" ++ query else url in
  if nonempty fragment then url ++ lit "#" ++ fragment else url.

Definition urlunparse (scheme netloc url params query fragment : str) : str :=
  let url := if nonempty params then url ++ lit ";" ++ params else url in
  urlunsplit scheme netloc url query fragment.

(** [segments[1:-1] = filter(None, segments[1:-1])] *)
Definition filter_middle (segments : list str) : list str :=
  match segments with
  | [] => []
  | first :: rest =>
      match rev rest with
      | [] => [first]
      | last :: rmid => first :: filter nonempty (rev rmid) ++ [last]
      end
  end.

(** The loop that resolves [.] and [..] segments. *)
Fixpoint resolve_segments (segments resolved_path : list str) : list str :=
  match segments with
  | [] => resolved_path
  | seg :: rest =>
      if str_eqb seg (lit "..")
      then resolve_segments rest (removelast resolved_path)
      else if str_eqb seg (lit ".")
      then resolve_segments rest resolved_path
      else resolve_segments rest (resolved_path ++ [seg])
  end.

Section Join.

Variable bracketed_netloc_ok : str -> bool.
Variable nfkc : str -> str.

Definition urljoin (base url : str) : result str :=
  if negb (nonempty base) then Ok url
  else if negb (nonempty url) then Ok base
  else
    b <- urlparse bracketed_netloc_ok nfkc base [] ;;
    u <- urlparse bracketed_netloc_ok nfkc url (p_scheme b) ;;
    let scheme := p_scheme u in
    if negb (str_eqb scheme (p_scheme b)) || negb (str_in scheme uses_relative)
    then Ok url
    else if str_in scheme uses_netloc && nonempty (p_netloc u)
    then Ok (urlunparse scheme (p_netloc u) (p_path u) (p_params u)
                        (p_query u) (p_fragment u))
    else
      let netloc :=
        if str_in scheme uses_netloc then p_netloc b else p_netloc u in
      if negb (nonempty (p_path u)) && negb (nonempty (p_params u))
      then
        let query := if nonempty (p_query u) then p_query u else p_query b in
        Ok (urlunparse scheme netloc (p_path b) (p_params b)
                       query (p_fragment u))
      else
        let base_parts := split 47 (p_path b) in
        let base_parts :=
          if nonempty (last base_parts []) then removelast base_parts
          else base_parts in
        let segments :=
          if str_eqb (firstn 1 (p_path u)) (lit "/")
          then split 47 (p_path u)
          else filter_middle (base_parts ++ split 47 (p_path u)) in
        let resolved_path := resolve_segments segments [] in
        let resolved_path :=
          if str_in (last segments []) [lit "."; lit ".."]
          then resolved_path ++ [[]] else resolved_path in
        let joined := join (lit "/") resolved_path in
        Ok (urlunparse scheme netloc
                       (if nonempty joined then joined else lit "/")
                       (p_params u) (p_query u) (p_fragment u)).

End Join.

(** The scheme [urlsplit(url)] reports when no default is given, and the
    usual test for an absolute URL: [urlsplit(url).scheme != ""]. *)
Definition url_scheme (url : str) : str :=
  match split_scheme (sanitize_url url) with
  | Some (sch, _) => sch
  | None => []
  end.

Definition is_absolute (url : str) : bool := nonempty (url_scheme url).

End Url.

(* ===================================================================== *)
(** * The BeautifulSoup tree *)
(* ===================================================================== *)

(** The parse tree holds elements and text; comments and the other special
    strings, which [get_text] leaves out, are not represented.  Names of
    elements and attributes are as the parser stores them, in lower case.
    A [Tag] is an element together with the chain of its ancestors (name
    and attributes, nearest first), which is what the [parent] links of the
    library give: a CSS selector with a descendant combinator looks at
    them, also above the element [select] is called on. *)

Module Soup.

(** The attribute [dict] of an element, as its items.  The parser stores
    every attribute the script reads as a [str]; the [class] attribute is
    kept as written and split into class names on demand. *)
Definition attributes := list (str * str).

Inductive Node :=
| Element (name : str) (attrs : attributes) (contents : list Node)
| NavigableString (text : str).

Record Tag := mkTag {
  parents : list (str * attributes);
  name : str;
  attrs : attributes;
  contents : list Node }.

(** [tag.get(key)] *)
Fixpoint attr_get (a : attributes) (key : str) : option str :=
  match a with
  | [] => None
  | (k, v) :: r => if str_eqb k key then Some v else attr_get r key
  end.

Definition get (t : Tag) (key : str) : option str := attr_get (attrs t) key.

(** [tag.has_attr(key)] *)
Definition has_attr (t : Tag) (key : str) : bool :=
  match get t key with Some _ => true | None => false end.

(** [tag[key]] *)
Definition tag_getitem (t : Tag) (key : str) : result str :=
  match get t key with Some v => Ok v | None => Raise KeyError end.

(** The elements below a node, in document order, each with its ancestors. *)
Fixpoint node_tags (up : list (str * attributes)) (n : Node) : list Tag :=
  match n with
  | NavigableString _ => []
  | Element nm a cs =>
      mkTag up nm a cs :: flat_map (node_tags ((nm, a) :: up)) cs
  end.

(** [tag.descendants], restricted to elements. *)
Definition descendants (t : Tag) : list Tag :=
  flat_map (node_tags ((name t, attrs t) :: parents t)) (contents t).

(** [tag.find_all(names)] and [tag.find_all(names, limit=n)] *)
Definition find_all (t : Tag) (names : list str) : list Tag :=
  filter (fun d => str_in (name d) names) (descendants t).

Definition find_all_limit (t : Tag) (names : list str) (limit : nat) : list Tag :=
  firstn limit (find_all t names).

(** [tag.find(name)] *)
Definition find (t : Tag) (nm : str) : option Tag :=
  hd_error (find_all t [nm]).

(** The strings below a node, in document order. *)
Fixpoint node_strings (n : Node) : list str :=
  match n with
  | NavigableString s => [s]
  | Element _ _ cs => flat_map node_strings cs
  end.

(** [tag.get_text(strip=True)]: every string below the tag is stripped,
    the ones left empty are skipped, the others are concatenated. *)
Definition get_text (t : Tag) : str :=
  List.concat (filter nonempty (map strip (flat_map node_strings (contents t)))).

(** ** CSS selectors

    The selectors of the script are compound selectors (an optional type
    name, class names, attribute-presence tests) chained by the descendant
    combinator.  A [selector] lists its compounds in source order:
    ['.info .score'] is [[cls "info"; cls "score"]]. *)

Record compound := mkCompound {
  c_name : option str;
  c_classes : list str;
  c_attrs : list str }.

Definition selector := list compound.

Definition class_names (a : attributes) : list str :=
  match attr_get a (lit "class") with
  | Some v => words v
  | None => []
  end.

Definition match_compound (c : compound) (nm : str) (a : attributes) : bool :=
  match c_name c with Some t => str_eqb t nm | None => true end
  && forallb (fun k => str_in k (class_names a)) (c_classes c)
  && forallb (fun k => match attr_get a k with Some _ => true | None => false end)
             (c_attrs c).

(** [cs] are the compounds still to be found among the ancestors, innermost
    first; [ps] the remaining ancestors, nearest first. *)
Fixpoint match_ancestors (cs : list compound) (ps : list (str * attributes)) : bool :=
  match cs with
  | [] => true
  | c :: cs' =>
      (fix scan (ps : list (str * attributes)) : bool :=
         match ps with
         | [] => false
         | (nm, a) :: ps' =>
             match_compound c nm a && match_ancestors cs' ps' || scan ps'
         end) ps
  end.

Definition matches (sel : selector) (t : Tag) : bool :=
  match rev sel with
  | [] => false
  | subject :: ancestors =>
      match_compound subject (name t) (attrs t)
      && match_ancestors ancestors (parents t)
  end.

(** [tag.select(sel)] and [tag.select_one(sel)] *)
Definition select (t : Tag) (sel : selector) : list Tag :=
  filter (matches sel) (descendants t).

Definition select_one (t : Tag) (sel : selector) : option Tag :=
  hd_error (select t sel).

(** Builders for the compounds the script uses. *)
Definition tag (nm : string) : compound := mkCompound (Some (lit nm)) [] [].
Definition cls (c : string) : compound := mkCompound None [lit c] [].
Definition tag_attr (nm a : string) : compound :=
  mkCompound (Some (lit nm)) [] [lit a].
Definition tag_cls (nm c : string) : compound :=
  mkCompound (Some (lit nm)) [lit c] [].
Definition cls2 (c1 c2 : string) : compound :=
  mkCompound None [lit c1; lit c2] [].

(** The [BeautifulSoup] object made of the top-level nodes of a document. *)
Definition document (top : list Node) : Tag :=
  mkTag [] (lit "[document]") [] top.

End Soup.

Import Soup.

(* ===================================================================== *)
(** * movie_crawler.py *)
(* ===================================================================== *)

Definition BASE : str := lit "https://ssr1.scrape.center".

(** The keys of a record. *)
Definition k_title : str := lit "title".
Definition k_image_url : str := lit "image_url".
Definition k_rating : str := lit "rating".
Definition k_types : str := lit "types".
Definition k_page : str := lit "page".
Definition k_detail_url : str := lit "detail_url".

Definition title_selectors : list selector :=
  [ [tag "h2"];
    [cls "name"];
    [tag_attr "a" "title"];
    [tag_cls "a" "movie-name"];
    [cls "el-card__header"; tag "h2"] ].

Definition rating_selectors : list selector :=
  [ [cls "score"];
    [cls "rating"];
    [cls "en"; cls "score"];
    [cls "info"; cls "score"];
    [cls "score-number"] ].

Definition type_selectors : list selector :=
  [ [cls "types"];
    [cls "genre"];
    [cls "genres"];
    [cls "categories"];
    [cls "meta"];
    [cls "info"; cls "tags"] ].

Definition card_selectors : list selector :=
  [ [cls "movie-item"];
    [cls2 "el-card" "movie-item"];
    [cls "el-card"];
    [cls "card"];
    [cls "item"];
    [cls "movie"] ].

(** The noise tokens of the types post-processing: ['new', '2020', '2021']. *)
Definition noise_tokens : list str := [lit "new"; lit "2020"; lit "2021"].

(** ['一' <= c <= '鿿'] *)
Definition is_cjk (c : char) : bool := ((19968 <=? c) && (c <=? 40959))%N.

(** The header of the CSV file written by [save_csv]. *)
Definition fieldnames : list str :=
  [k_title; k_image_url; k_rating; k_types; k_page; k_detail_url].

(** What [requests.get] does for a URL: it raises, or it returns a response
    with a status code and a body. *)
Inductive http_outcome :=
| RequestFailed
| Response (status_code : Z) (text : str).

(** The observable effects of a run, in order: each call of [fetch] and each
    call of [time.sleep].  The duration handed to [time.sleep],
    [0.6 + random.random() * 1.2], is a float and is not represented. *)
Inductive event :=
| EvFetch (url : str)
| EvSleep.

Record state := mkState {
  rows : list dict;
  trace : list event }.

(** [for x in l: s = body(s, x)], stopped by the first exception. *)
Fixpoint for_each {S A : Type} (body : S -> A -> result S) (l : list A) (s : S)
  : result S :=
  match l with
  | [] => Ok s
  | x :: r => s' <- body s x ;; for_each body r s'
  end.

(** [range(a, b)] *)
Definition range (a b : Z) : list Z :=
  map (fun k => (a + Z.of_nat k)%Z) (seq 0 (Z.to_nat (b - a))).

Section Crawler.

(** The world outside the script. *)
Variable requests_get : str -> http_outcome.
(** [BeautifulSoup(html, 'html.parser')]: the top-level nodes of the tree,
    or the exception the constructor raises on markup it rejects; the
    script calls it outside any [try]. *)
Variable html_parser : str -> result (list Node).
(** The Unicode tables behind [str.isalpha] and [str.lower]. *)
Variable isalpha : char -> bool.
Variable lower : str -> str.
(** The two checks of [urlsplit] that are parameters of [Url]. *)
Variable bracketed_netloc_ok : str -> bool.
Variable nfkc : str -> str.

Definition urljoin : str -> str -> result str :=
  Url.urljoin bracketed_netloc_ok nfkc.

(** [fetch(url)]: the body of the response, or [None] when [requests.get]
    or [raise_for_status] raised (status 400 to 599). *)
Definition fetch (url : str) : option str :=
  match requests_get url with
  | RequestFailed => None
  | Response status_code text =>
      if ((400 <=? status_code) && (status_code <? 600))%Z then None
      else Some text
  end.

(** ** parse_movie_card *)

Definition initial_data : dict :=
  [ (k_title, VStr []);
    (k_image_url, VStr []);
    (k_rating, VStr []);
    (k_types, VStr []);
    (k_detail_url, VStr []) ].

(** 1) title: the value taken from one matched node. *)
Definition node_title (node : Tag) : result str :=
  if has_attr node k_title then
    t <- tag_getitem node k_title ;;
    if nonempty (strip t) then Ok (strip t) else Ok (get_text node)
  else Ok (get_text node).

Fixpoint title_loop (card : Tag) (sels : list selector) (data : dict)
  : result dict :=
  match sels with
  | [] => Ok data
  | sel :: rest =>
      match select_one card sel with
      | Some node =>
          t <- node_title node ;;
          let data := setitem data k_title (VStr t) in
          t' <- getitem data k_title ;;
          if truthy t' then Ok data else title_loop card rest data
      | None => title_loop card rest data
      end
  end.

(** 2) detail_url *)
Definition detail_anchor (card : Tag) : option Tag :=
  match select_one card [tag_attr "a" "href"] with
  | Some a => Some a
  | None => find card (lit "a")
  end.

Definition detail_step (card : Tag) (data : dict) : result dict :=
  match detail_anchor card with
  | Some a =>
      if has_attr a (lit "href") then
        href <- tag_getitem a (lit "href") ;;
        u <- urljoin BASE href ;;
        Ok (setitem data k_detail_url (VStr u))
      else Ok data
  | None => Ok data
  end.

(** 3) image url: [x or y or z] on the three source attributes. *)
Definition py_or (x y : option str) : option str :=
  match x with
  | Some s => if nonempty s then x else y
  | None => y
  end.

Definition image_src (img : Tag) : option str :=
  py_or (py_or (get img (lit "src")) (get img (lit "data-src")))
        (get img (lit "data-original")).

Definition image_step (card : Tag) (data : dict) : result dict :=
  match find card (lit "img") with
  | Some img =>
      match image_src img with
      | Some src =>
          if nonempty src then
            u <- urljoin BASE src ;;
            Ok (setitem data k_image_url (VStr u))
          else Ok data
      | None => Ok data
      end
  | None => Ok data
  end.

(** 4) rating *)
Fixpoint rating_loop (card : Tag) (sels : list selector) (data : dict) : dict :=
  match sels with
  | [] => data
  | sel :: rest =>
      match select_one card sel with
      | Some node => setitem data k_rating (VStr (get_text node))
      | None => rating_loop card rest data
      end
  end.

Definition rating_step (card : Tag) (data : dict) : result dict :=
  let data := rating_loop card rating_selectors data in
  r <- getitem data k_rating ;;
  if negb (truthy r) then
    if has_attr card (lit "data-score") then
      v <- tag_getitem card (lit "data-score") ;;
      Ok (setitem data k_rating (VStr v))
    else Ok data
  else Ok data.

(** 5) types *)
Definition collect_texts (nodes : list Tag) (types_found : list str) : list str :=
  fold_left (fun acc n =>
               let txt := get_text n in
               if nonempty txt then acc ++ [txt] else acc)
            nodes types_found.

Fixpoint types_loop (card : Tag) (sels : list selector) (types_found : list str)
  : list str :=
  match sels with
  | [] => types_found
  | sel :: rest =>
      match select card sel with
      | [] => types_loop card rest types_found
      | nodes =>
          let types_found := collect_texts nodes types_found in
          match types_found with
          | [] => types_loop card rest types_found
          | _ => types_found
          end
      end
  end.

(** The condition of the heuristic, with Python's precedence:
    [(txt and 1 <= len(txt) <= 40 and any(isalpha)) or any(cjk)]. *)
Definition heuristic_accept (txt : str) : bool :=
  nonempty txt && (1 <=? List.length txt) && (List.length txt <=? 40)
  && existsb isalpha txt
  || existsb is_cjk txt.

Definition heuristic_scan (card : Tag) : list str :=
  fold_left (fun acc s =>
               let txt := get_text s in
               if heuristic_accept txt then acc ++ [txt] else acc)
            (find_all_limit card [lit "span"; lit "p"] 6) [].

Definition clean_types (types_found : list str) : list str :=
  fold_left (fun clean t =>
               let t := strip (replace_char 10%N 32%N t) in
               if nonempty t && negb (str_in (lower t) noise_tokens)
               then clean ++ [t] else clean)
            types_found [].

Definition types_step (card : Tag) (data : dict) : dict :=
  let types_found := types_loop card type_selectors [] in
  let types_found :=
    match types_found with
    | [] => heuristic_scan card
    | _ => types_found
    end in
  match types_found with
  | [] => data
  | _ => setitem data k_types
           (VStr (join (lit ";") (fromkeys (clean_types types_found))))
  end.

Definition parse_movie_card (card : Tag) (page_url : str) : result dict :=
  data <- title_loop card title_selectors initial_data ;;
  data <- detail_step card data ;;
  data <- image_step card data ;;
  data <- rating_step card data ;;
  Ok (types_step card data).

(** ** scrape_pages *)

(** The cascade over [card_selectors]. *)
Fixpoint select_cards (soup : Tag) (sels : list selector) : list Tag :=
  match sels with
  | [] => []
  | sel :: rest =>
      match select soup sel with
      | [] => select_cards soup rest
      | found => found
      end
  end.

Definition is_some {A} (o : option A) : bool :=
  match o with Some _ => true | None => false end.

(** The scan over [article], [li] and [div] elements. *)
Definition heuristic_cards (soup : Tag) : list Tag :=
  fold_left (fun cards p =>
               if is_some (find p (lit "img")) && is_some (find p (lit "a"))
               then cards ++ [p] else cards)
            (find_all soup [lit "article"; lit "li"; lit "div"]) [].

Definition find_cards (soup : Tag) : list Tag :=
  match select_cards soup card_selectors with
  | [] => heuristic_cards soup
  | cards => cards
  end.

(** The body of [for c in cards]. *)
Definition card_step (i : Z) (page_url : str) (rows : list dict) (c : Tag)
  : result (list dict) :=
  data <- parse_movie_card c page_url ;;
  let data := setitem data k_page (VInt i) in
  t <- getitem data k_title ;;
  data <-
    (if negb (truthy t) then
       match find c (lit "img") with
       | Some img =>
           if has_attr img (lit "alt") then
             alt <- tag_getitem img (lit "alt") ;;
             Ok (setitem data k_title (VStr (strip alt)))
           else Ok data
       | None => Ok data
       end
     else Ok data) ;;
  t <- getitem data k_title ;;
  if negb (truthy t) then Ok rows else Ok (rows ++ [data]).

Definition page_url_of (i : Z) : str := BASE ++ lit "/page/" ++ str_of_int i.

(** The body of [for i in range(start, end + 1)]. *)
Definition page_step (st : state) (i : Z) : result state :=
  let page_url := page_url_of i in
  let html := fetch page_url in
  let st := mkState (rows st) (trace st ++ [EvFetch page_url]) in
  match html with
  | None => Ok st
  | Some [] => Ok st
  | Some html =>
      top <- html_parser html ;;
      let soup := document top in
      let cards := find_cards soup in
      rows' <- for_each (card_step i page_url) cards (rows st) ;;
      Ok (mkState rows' (trace st ++ [EvSleep]))
  end.

(** The run, with its effects. *)
Definition run_pages (start end_ : Z) : result state :=
  for_each page_step (range start (end_ + 1)) (mkState [] []).

Definition scrape_pages (start end_ : Z) : result (list dict) :=
  st <- run_pages start end_ ;;
  Ok (rows st).

(** ** save_csv: the row handed to the CSV writer *)

Definition csv_row (r : dict) : dict :=
  map (fun k => (k, get_default r k (VStr []))) fieldnames.

(** [None] when there is nothing to save; otherwise the header and the
    rows, in order. *)
Definition save_csv (rows : list dict) : option (list str * list dict) :=
  match rows with
  | [] => None
  | _ => Some (fieldnames, map csv_row rows)
  end.

End Crawler.

(* ===================================================================== *)
(** * Auxiliary definitions used to state the properties *)
(* ===================================================================== *)

(** The two shapes a record dictionary takes: as [parse_movie_card] returns
    it, and after [data['page'] = i]. *)
Definition record5 (title image_url rating types detail_url : str) : dict :=
  [ (k_title, VStr title);
    (k_image_url, VStr image_url);
    (k_rating, VStr rating);
    (k_types, VStr types);
    (k_detail_url, VStr detail_url) ].

Definition record6 (title image_url rating types detail_url : str) (page : Z)
  : dict :=
  record5 title image_url rating types detail_url ++ [(k_page, VInt page)].

(** [data-score] of the container, [""] when the attribute is absent. *)
Definition data_score (card : Tag) : str :=
  match get card (lit "data-score") with
  | Some v => v
  | None => []
  end.

(** The text of every node of a list, the empty ones left out. *)
Definition texts (nodes : list Tag) : list str :=
  filter nonempty (map get_text nodes).

(** The normalisation applied to each collected types entry:
    [t.replace('\n', ' ').strip()]. *)
Definition normalise (t : str) : str := strip (replace_char 10%N 32%N t).

Section FieldValues.

Variable isalpha : char -> bool.
Variable lower : str -> str.
Variable bracketed_netloc_ok : str -> bool.
Variable nfkc : str -> str.

(** A URL field is either left empty or holds what [urljoin(BASE, raw)]
    returned for some [raw]. *)
Definition resolved (u : str) : Prop :=
  u = [] \/ exists raw, urljoin bracketed_netloc_ok nfkc BASE raw = Ok u.

(** The node of the first selector of a cascade that matches. *)
Fixpoint first_match (card : Tag) (sels : list selector) : option Tag :=
  match sels with
  | [] => None
  | sel :: rest =>
      match select_one card sel with
      | Some node => Some node
      | None => first_match card rest
      end
  end.

(** The value [parse_movie_card] leaves under ['rating']. *)
Definition rating_value (card : Tag) : str :=
  let r := match first_match card rating_selectors with
           | Some node => get_text node
           | None => []
           end in
  if nonempty r then r else data_score card.

(** The raw types entries: from the cascade, else from the heuristic. *)
Definition found_types (card : Tag) : list str :=
  match types_loop card type_selectors [] with
  | [] => heuristic_scan isalpha card
  | types_found => types_found
  end.

(** The value [parse_movie_card] leaves under ['types']. *)
Definition types_value (card : Tag) : str :=
  match found_types card with
  | [] => []
  | types_found => join (lit ";") (fromkeys (clean_types lower types_found))
  end.

End FieldValues.

Section Accumulate.

Variable requests_get : str -> http_outcome.
Variable html_parser : str -> result (list Node).
Variable isalpha : char -> bool.
Variable lower : str -> str.
Variable bracketed_netloc_ok : str -> bool.
Variable nfkc : str -> str.

(** The records of one page whose markup is [html], in the order in which
    the containers were found. *)
Definition page_records (i : Z) (html : str) : result (list dict) :=
  top <- html_parser html ;;
  for_each (card_step isalpha lower bracketed_netloc_ok nfkc i (page_url_of i))
           (find_cards (document top)) [].

(** What page [i] contributes to the run: nothing when its fetch failed or
    returned an empty body, its records otherwise. *)
Definition contribution (i : Z) : result (list dict) :=
  match fetch requests_get (page_url_of i) with
  | None => Ok []
  | Some [] => Ok []
  | Some html => page_records i html
  end.

(** The contributions of the pages, concatenated in page order. *)
Fixpoint accumulate (pages : list Z) : result (list dict) :=
  match pages with
  | [] => Ok []
  | i :: rest =>
      here <- contribution i ;;
      later <- accumulate rest ;;
      Ok (here ++ later)
  end.

End Accumulate.

(** ** The values of the other fields, and the program entry *)

(** The title one matched node yields: its [title] attribute, stripped,
    when that is not empty, and its text otherwise. *)
Definition node_title_value (node : Tag) : str :=
  match get node k_title with
  | Some t => if nonempty (strip t) then strip t else get_text node
  | None => get_text node
  end.

(** The first non-empty title along a cascade; [""] when there is none. *)
Fixpoint title_cascade (card : Tag) (sels : list selector) : str :=
  match sels with
  | [] => []
  | sel :: rest =>
      match select_one card sel with
      | Some node =>
          if nonempty (node_title_value node) then node_title_value node
          else title_cascade card rest
      | None => title_cascade card rest
      end
  end.

(** The [alt] text of the first image of a container, stripped; [""] when
    there is no image or no such attribute. *)
Definition alt_title (c : Tag) : str :=
  match find c (lit "img") with
  | Some img =>
      match get img (lit "alt") with
      | Some alt => strip alt
      | None => []
      end
  | None => []
  end.

(** The title a container ends with: the one of the cascade, else the
    [alt] text. *)
Definition final_title (c : Tag) : str :=
  if nonempty (title_cascade c title_selectors)
  then title_cascade c title_selectors
  else alt_title c.

(** A string that [strip] leaves as it is. *)
Definition trimmed (s : str) : Prop := strip s = s.

(** A string that does not start, or does not end, with whitespace. *)
Definition no_leading_space (s : str) : Prop :=
  match s with
  | [] => True
  | c :: _ => isspace c = false
  end.

Definition no_trailing_space (s : str) : Prop := no_leading_space (rev s).

Section Entry.

Variable requests_get : str -> http_outcome.
Variable html_parser : str -> result (list Node).
Variable isalpha : char -> bool.
Variable lower : str -> str.
Variable bracketed_netloc_ok : str -> bool.
Variable nfkc : str -> str.

(** The link a container resolves for ['detail_url']: the [href] of its
    anchor, joined to [BASE]; [""] without such an anchor. *)
Definition detail_value (card : Tag) : result str :=
  match detail_anchor card with
  | Some a =>
      match get a (lit "href") with
      | Some href => urljoin bracketed_netloc_ok nfkc BASE href
      | None => Ok []
      end
  | None => Ok []
  end.

(** The link a container resolves for ['image_url']. *)
Definition image_value (card : Tag) : result str :=
  match find card (lit "img") with
  | Some img =>
      match image_src img with
      | Some (c :: src) => urljoin bracketed_netloc_ok nfkc BASE (c :: src)
      | _ => Ok []
      end
  | None => Ok []
  end.

(** The effects of a run over a list of pages: one fetch per page, in
    order, followed by a sleep when the page gave a non-empty body. *)
Definition page_events (i : Z) : list event :=
  EvFetch (page_url_of i)
  :: match fetch requests_get (page_url_of i) with
     | Some (_ :: _) => [EvSleep]
     | _ => []
     end.

(** [if __name__ == '__main__']: scrape pages 1 to 10 and save the rows.
    The result is what [save_csv] writes; the lines printed afterwards are
    not represented. *)
Definition main : result (option (list str * list dict)) :=
  scraped <- scrape_pages requests_get html_parser isalpha lower
                          bracketed_netloc_ok nfkc 1 10 ;;
  Ok (save_csv scraped).

End Entry.

(** ** The result of a run, stated without the loops

    What the pipeline is to return, following the words of its design: per
    container a record or nothing, per page the records of its containers
    in the order in which they were found, for the run the results of its
    pages in page order. *)

Section RunResult.

Variable requests_get : str -> http_outcome.
Variable html_parser : str -> result (list Node).
Variable isalpha : char -> bool.
Variable lower : str -> str.
Variable bracketed_netloc_ok : str -> bool.
Variable nfkc : str -> str.

(** The record of one container of page [i]: the field map of
    [parse_movie_card] with the page index, under the title of the cascade
    or else the [alt] text of its image; nothing when both are empty. *)
Definition record_of (i : Z) (c : Tag) : result (list dict) :=
  d <- parse_movie_card isalpha lower bracketed_netloc_ok nfkc c (page_url_of i) ;;
  let cascade := match getitem d k_title with
                 | Ok (VStr t) => t
                 | _ => []
                 end in
  let title := if nonempty cascade then cascade else alt_title c in
  Ok (if nonempty title
      then [setitem (setitem d k_page (VInt i)) k_title (VStr title)]
      else []).

Fixpoint records_of_cards (i : Z) (cards : list Tag) : result (list dict) :=
  match cards with
  | [] => Ok []
  | c :: rest =>
      r <- record_of i c ;;
      rs <- records_of_cards i rest ;;
      Ok (r ++ rs)
  end.

(** The records of a page whose markup is [html]. *)
Definition records_of_page (i : Z) (html : str) : result (list dict) :=
  top <- html_parser html ;;
  records_of_cards i (find_cards (document top)).

(** The result of page [i]: nothing when its fetch failed or gave an empty
    body, the records of its markup otherwise. *)
Definition page_result (i : Z) : result (list dict) :=
  match fetch requests_get (page_url_of i) with
  | None => Ok []
  | Some [] => Ok []
  | Some html => records_of_page i html
  end.

(** The results of the pages, concatenated in page order. *)
Fixpoint run_result (pages : list Z) : result (list dict) :=
  match pages with
  | [] => Ok []
  | i :: rest =>
      here <- page_result i ;;
      later <- run_result rest ;;
      Ok (here ++ later)
  end.

End RunResult.

(* ===================================================================== *)
(** * Sample markup and a sample site *)
(* ===================================================================== *)

Module Sample.

Local Open Scope string_scope.

Definition el (nm : string) (a : list (string * string)) (cs : list Node) : Node :=
  Element (lit nm) (map (fun kv => (lit (fst kv), lit (snd kv))) a) cs.

Definition txt (s : string) : Node := NavigableString (lit s).

(** A container as a page hands it to [parse_movie_card]: the element is a
    child of the document. *)
Definition top_tag (n : Node) : Tag :=
  match n with
  | Element nm a cs => mkTag [(lit "[document]", [])] nm a cs
  | NavigableString _ => document []
  end.

(** Tables: letters of Basic Latin and the CJK ideographs are alphabetic;
    lower-casing acts on Basic Latin; no bracketed host is rejected; NFKC
    leaves its argument unchanged. *)
Definition isalpha (c : char) : bool := Url.is_ascii_alpha c || is_cjk c.
Definition lower (s : str) : str := Url.ascii_lower s.
Definition bracketed_netloc_ok (netloc : str) : bool := true.
Definition nfkc (s : str) : str := s.

Definition parse (card : Tag) : result dict :=
  parse_movie_card isalpha lower bracketed_netloc_ok nfkc card
                   (page_url_of 1).

(** A listing in the style of the site. *)
Definition movie_card (title href src score : string) (genres : list string)
  : Node :=
  el "div" [("class", "el-card item m-t")]
     [ el "a" [("href", href)] [ el "img" [("src", src); ("class", "cover")] [] ];
       el "a" [("href", href); ("class", "name")]
          [ el "h2" [("class", "m-b-sm")] [ txt title ] ];
       el "div" [("class", "categories")]
          (map (fun g => el "button" [("class", "category")]
                            [ el "span" [] [ txt g ] ]) genres);
       el "p" [("class", "score m-t-md")] [ txt score ] ].

(** A container whose [.score] node is empty and which carries [data-score]. *)
Definition card_empty_score : Node :=
  el "div" [("class", "card"); ("data-score", "9.0")]
     [ el "h2" [] [ txt "Alien" ];
       el "span" [("class", "score")] [] ].

(** A container whose [.types] node is empty and whose [.genre] node is not. *)
Definition card_empty_types : Node :=
  el "div" [("class", "card")]
     [ el "h2" [] [ txt "Alien" ];
       el "div" [("class", "types")] [];
       el "div" [("class", "genre")] [ txt "Drama" ] ].

(** A container whose only types entry is a bare year. *)
Definition card_year : Node :=
  el "div" [("class", "card")]
     [ el "h2" [] [ txt "Alien" ];
       el "span" [("class", "types")] [ txt "1999" ] ].

(** A container with three types entries, one of them repeated. *)
Definition card_three_types : Node :=
  el "div" [("class", "card")]
     [ el "h2" [] [ txt "Alien" ];
       el "span" [("class", "types")] [ txt " Drama" ];
       el "span" [("class", "types")] [ txt "Action " ];
       el "span" [("class", "types")] [ txt "Drama" ] ].

(** Forty-one copies of the ideograph U+4E00. *)
Definition long_cjk : str := repeat 19968%N 41.

(** A container without any types selector, with one long [span]. *)
Definition card_long_span : Node :=
  el "div" [("class", "card")]
     [ el "h2" [] [ txt "Alien" ];
       Element (lit "span") [] [ NavigableString long_cjk ] ].

(** Markup without any of the card classes: one listing, an [li] inside a
    [div]. *)
Definition nested_listing : list Node :=
  [ el "div" [("id", "list")]
       [ el "li" []
            [ el "img" [("src", "/img/7.jpg"); ("alt", "Seven")] [];
              el "a" [("href", "/detail/7")] [ txt "more" ] ] ] ].

(** A site of five pages; the request for page 3 fails with status 500 and
    every other page holds one listing. *)
Definition body (i : Z) : str := (lit "page " ++ str_of_int i)%list.

Definition requests_get (url : str) : http_outcome :=
  if str_eqb url (page_url_of 1) then Response 200 (body 1)
  else if str_eqb url (page_url_of 2) then Response 200 (body 2)
  else if str_eqb url (page_url_of 3) then Response 500 (lit "Server Error")
  else if str_eqb url (page_url_of 4) then Response 200 (body 4)
  else if str_eqb url (page_url_of 5) then Response 200 (body 5)
  else RequestFailed.

Definition html_parser (html : str) : result (list Node) :=
  if str_eqb html (body 1)
  then Ok [movie_card "Farewell My Concubine" "/detail/1" "/img/1.jpg" "9.5"
                      ["Drama"; "Romance"]]
  else if str_eqb html (body 2)
  then Ok [movie_card "Leon" "/detail/2" "img/2.jpg" "9.5" ["Action"]]
  else if str_eqb html (body 4)
  then Ok [movie_card "Titanic" "/detail/4" "//cdn.example.com/4.jpg" "9.4" []]
  else if str_eqb html (body 5)
  then Ok [movie_card "Roman Holiday" "detail/5" "/img/5.jpg" "" ["Comedy"]]
  else Ok [].

Definition run (start end_ : Z) : result state :=
  run_pages requests_get html_parser isalpha lower bracketed_netloc_ok nfkc
            start end_.

Definition scrape (start end_ : Z) : result (list dict) :=
  scrape_pages requests_get html_parser isalpha lower bracketed_netloc_ok nfkc
               start end_.

(** The rows of the run over pages 1 to 5, and the row of page 2. *)
Definition rows_1_5 : list dict :=
  Eval vm_compute in
    match scrape 1 5 with Ok rs => rs | Raise _ => [] end.

Definition row_leon : dict := Eval vm_compute in nth 1 rows_1_5 [].

(** What [parse_movie_card] returns for the sample containers. *)
Definition parsed (n : Node) : dict :=
  match parse (top_tag n) with Ok d => d | Raise _ => [] end.

Definition parsed_empty_score : dict := Eval vm_compute in parsed card_empty_score.
Definition parsed_empty_types : dict := Eval vm_compute in parsed card_empty_types.
Definition parsed_year : dict := Eval vm_compute in parsed card_year.
Definition parsed_three_types : dict := Eval vm_compute in parsed card_three_types.
Definition parsed_long_span : dict := Eval vm_compute in parsed card_long_span.

(** A site whose page 1 is [nested_listing] and which has no other page. *)
Definition nested_get (url : str) : http_outcome :=
  if str_eqb url (page_url_of 1) then Response 200 (body 1) else RequestFailed.

Definition nested_parser (html : str) : result (list Node) := Ok nested_listing.

(** More containers: a title attribute beside a text; a listing of the
    sample site; a lazily loaded image; a link [urlsplit] rejects; a
    container whose only title is the [alt] text of its image. *)
Definition card_h2_title : Node :=
  el "div" [("class", "card")]
     [ el "h2" [("title", " Le Mans 66 ")] [ txt "text" ] ].

Definition card_leon : Node :=
  movie_card "Leon" "/detail/2" "img/2.jpg" "9.5" ["Action"].

Definition card_lazy : Node :=
  el "div" [("class", "card")]
     [ el "h2" [] [ txt "Alien" ];
       el "a" [("name", "top")] [];
       el "img" [("src", ""); ("data-src", "/img/lazy.jpg")] [];
       el "img" [("src", "/img/second.jpg")] [] ].

Definition card_bad_href : Node :=
  el "div" [("class", "card")]
     [ el "h2" [] [ txt "Alien" ];
       el "a" [("href", "//[")] [] ].

Definition card_alt_only : Node :=
  el "li" []
     [ el "img" [("src", "/img/7.jpg"); ("alt", " Seven ")] [];
       el "a" [("href", "/detail/7")] [ txt "more" ] ].

Definition parsed_h2_title : dict := Eval vm_compute in parsed card_h2_title.
Definition parsed_leon : dict := Eval vm_compute in parsed card_leon.
Definition parsed_lazy : dict := Eval vm_compute in parsed card_lazy.
Definition parsed_alt_only : dict := Eval vm_compute in parsed card_alt_only.

(** The first image of [card_lazy]. *)
Definition lazy_img : Tag :=
  Eval vm_compute in
    match find (top_tag card_lazy) (lit "img") with
    | Some img => img
    | None => document []
    end.

(** The anchor of [card_leon] that carries the link. *)
Definition leon_anchor : Tag :=
  Eval vm_compute in
    match select_one (top_tag card_leon) [tag_attr "a" "href"] with
    | Some a => a
    | None => document []
    end.

(** A page made of two containers of class [card]. *)
Definition two_cards : list Node := [card_year; card_three_types].

Definition two_cards_found : list Tag :=
  Eval vm_compute in find_cards (document two_cards).

(** The final state of the run over pages 1 to 5 of the sample site. *)
Definition state_1_5 : state :=
  Eval vm_compute in
    match run 1 5 with Ok st => st | Raise _ => mkState [] [] end.

(** A site that cannot be reached, and a site whose page 1 holds the
    container with the rejected link. *)
Definition offline (url : str) : http_outcome := RequestFailed.

Definition bad_parser (html : str) : result (list Node) := Ok [card_bad_href].

(** A parser that rejects every body. *)
Definition rejecting_parser (html : str) : result (list Node) :=
  Raise ParserRejectedMarkup.

End Sample.

(* ===================================================================== *)
(** * Basic facts: strings, exceptions, loops, record dictionaries *)
(* ===================================================================== *)

Lemma str_eqb_refl (a : str) : str_eqb a a = true.
Proof.
  induction a as [|x a IH]; simpl; [reflexivity|].
  unfold char_eqb. now rewrite N.eqb_refl.
Qed.

Lemma str_eqb_eq (a b : str) : str_eqb a b = true <-> a = b.
Proof.
  split; [|intros ->; apply str_eqb_refl].
  revert b; induction a as [|x a IH]; intros [|y b]; simpl; try discriminate; auto.
  intros H. apply andb_true_iff in H as [Hx Hr].
  apply N.eqb_eq in Hx. f_equal; auto.
Qed.

Lemma str_in_In (x : str) (l : list str) : str_in x l = true <-> In x l.
Proof.
  unfold str_in. rewrite existsb_exists. split.
  - intros (y & Hy & E). apply str_eqb_eq in E. now subst.
  - intros H. exists x. split; [assumption|apply str_eqb_refl].
Qed.

Lemma nonempty_true (s : str) : nonempty s = true <-> s <> [].
Proof. destruct s; simpl; split; intros; congruence. Qed.

Lemma nonempty_false (s : str) : nonempty s = false <-> s = [].
Proof. destruct s; simpl; split; intros; congruence. Qed.

Lemma bind_Ok {A B} (m : result A) (k : A -> result B) (b : B) :
  bind m k = Ok b -> exists a, m = Ok a /\ k a = Ok b.
Proof. destruct m as [a|e]; simpl; [eauto|discriminate]. Qed.

(** Inverts every monadic bind that is known to return. *)
Ltac inv_bind H :=
  let a := fresh "a" in
  let Ha := fresh "Ha" in
  apply bind_Ok in H as (a & Ha & H).

(** A loop keeps every invariant its body keeps. *)
Lemma for_each_invariant {S A} (Inv : S -> Prop) (body : S -> A -> result S) :
  (forall s x s', Inv s -> body s x = Ok s' -> Inv s') ->
  forall l s s', Inv s -> for_each body l s = Ok s' -> Inv s'.
Proof.
  intros Hbody l; induction l as [|x l IH]; simpl; intros s s' Hs H.
  - now inversion H; subst.
  - inv_bind H. eauto.
Qed.

Lemma for_each_app {S A} (body : S -> A -> result S) (l1 l2 : list A) (s : S) :
  for_each body (l1 ++ l2) s = (s' <- for_each body l1 s ;; for_each body l2 s').
Proof.
  revert s; induction l1 as [|x l1 IH]; simpl; intros s; [reflexivity|].
  destruct (body s x); simpl; auto.
Qed.

(** An appending loop is a filter. *)
Lemma fold_left_append_if {A B} (f : A -> B) (keep : B -> bool) (l : list A)
      (acc : list B) :
  fold_left (fun acc x => if keep (f x) then acc ++ [f x] else acc) l acc
  = acc ++ filter keep (map f l).
Proof.
  revert acc; induction l as [|x l IH]; simpl; intros acc.
  - now rewrite app_nil_r.
  - rewrite IH. destruct (keep (f x)); [|reflexivity].
    now rewrite <- app_assoc.
Qed.

Lemma fold_left_append_filter {A} (keep : A -> bool) (l acc : list A) :
  fold_left (fun acc x => if keep x then acc ++ [x] else acc) l acc
  = acc ++ filter keep l.
Proof.
  rewrite <- (map_id l) at 2.
  exact (fold_left_append_if (fun x => x) keep l acc).
Qed.

(** ** [range] *)

Lemma range_empty (a b : Z) : (b <= a)%Z -> range a b = [].
Proof.
  intros H. unfold range.
  replace (Z.to_nat (b - a)) with 0%nat by lia. reflexivity.
Qed.

Lemma range_cons (a b : Z) : (a < b)%Z -> range a b = a :: range (a + 1) b.
Proof.
  intros H. unfold range.
  replace (Z.to_nat (b - a)) with (S (Z.to_nat (b - (a + 1)))) by lia.
  simpl. f_equal; [f_equal; lia|].
  rewrite <- seq_shift, map_map. apply map_ext. intros k. lia.
Qed.

Lemma range_In (a b i : Z) : In i (range a b) <-> (a <= i < b)%Z.
Proof.
  unfold range. rewrite in_map_iff. split.
  - intros (k & <- & Hk). apply in_seq in Hk. lia.
  - intros H. exists (Z.to_nat (i - a)). split; [lia|].
    apply in_seq. lia.
Qed.

(** ** The record dictionaries *)

Section RecordShapes.

Variables (t im r ty du x : str) (p : Z).

Lemma setitem5_title :
  setitem (record5 t im r ty du) k_title (VStr x) = record5 x im r ty du.
Proof. reflexivity. Qed.

Lemma setitem5_image_url :
  setitem (record5 t im r ty du) k_image_url (VStr x) = record5 t x r ty du.
Proof. reflexivity. Qed.

Lemma setitem5_rating :
  setitem (record5 t im r ty du) k_rating (VStr x) = record5 t im x ty du.
Proof. reflexivity. Qed.

Lemma setitem5_types :
  setitem (record5 t im r ty du) k_types (VStr x) = record5 t im r x du.
Proof. reflexivity. Qed.

Lemma setitem5_detail_url :
  setitem (record5 t im r ty du) k_detail_url (VStr x) = record5 t im r ty x.
Proof. reflexivity. Qed.

Lemma setitem5_page :
  setitem (record5 t im r ty du) k_page (VInt p) = record6 t im r ty du p.
Proof. reflexivity. Qed.

Lemma setitem6_title :
  setitem (record6 t im r ty du p) k_title (VStr x) = record6 x im r ty du p.
Proof. reflexivity. Qed.

Lemma getitem5_title : getitem (record5 t im r ty du) k_title = Ok (VStr t).
Proof. reflexivity. Qed.

Lemma getitem5_rating : getitem (record5 t im r ty du) k_rating = Ok (VStr r).
Proof. reflexivity. Qed.

Lemma getitem5_types : getitem (record5 t im r ty du) k_types = Ok (VStr ty).
Proof. reflexivity. Qed.

Lemma getitem6_title : getitem (record6 t im r ty du p) k_title = Ok (VStr t).
Proof. reflexivity. Qed.

Lemma getitem6_image_url :
  getitem (record6 t im r ty du p) k_image_url = Ok (VStr im).
Proof. reflexivity. Qed.

Lemma getitem6_rating : getitem (record6 t im r ty du p) k_rating = Ok (VStr r).
Proof. reflexivity. Qed.

Lemma getitem6_types : getitem (record6 t im r ty du p) k_types = Ok (VStr ty).
Proof. reflexivity. Qed.

Lemma getitem6_page : getitem (record6 t im r ty du p) k_page = Ok (VInt p).
Proof. reflexivity. Qed.

Lemma getitem6_detail_url :
  getitem (record6 t im r ty du p) k_detail_url = Ok (VStr du).
Proof. reflexivity. Qed.

Lemma keys_record6 :
  keys (record6 t im r ty du p)
  = [k_title; k_image_url; k_rating; k_types; k_detail_url; k_page].
Proof. reflexivity. Qed.

End RecordShapes.

Lemma initial_data_record5 : initial_data = record5 [] [] [] [] [].
Proof. reflexivity. Qed.

Arguments record5 : simpl never.
Arguments record6 : simpl never.
Arguments setitem : simpl never.
Arguments getitem : simpl never.

(* ===================================================================== *)
(** * What parse_movie_card returns *)
(* ===================================================================== *)

Section ParseMovieCard.

Variable isalpha : char -> bool.
Variable lower : str -> str.
Variable bracketed_netloc_ok : str -> bool.
Variable nfkc : str -> str.

Local Abbreviation urljoin' := (urljoin bracketed_netloc_ok nfkc).
Local Abbreviation resolved' := (resolved bracketed_netloc_ok nfkc).
Local Abbreviation parse_movie_card' :=
  (parse_movie_card isalpha lower bracketed_netloc_ok nfkc).
Local Abbreviation card_step' := (card_step isalpha lower bracketed_netloc_ok nfkc).
Local Abbreviation types_value' := (types_value isalpha lower).

Lemma has_attr_getitem (t : Tag) (k : str) :
  has_attr t k = true -> exists v, get t k = Some v /\ tag_getitem t k = Ok v.
Proof.
  unfold has_attr, tag_getitem. destruct (get t k) as [v|]; [eauto|discriminate].
Qed.

Lemma node_title_ok (node : Tag) : exists t, node_title node = Ok t.
Proof.
  unfold node_title. destruct (has_attr node k_title) eqn:E; [|eauto].
  destruct (has_attr_getitem _ _ E) as (v & _ & ->). cbn [bind truthy negb].
  destruct (nonempty (strip v)); eauto.
Qed.

Lemma title_loop_shape (card : Tag) (sels : list selector) (t im r ty du : str) :
  exists t', title_loop card sels (record5 t im r ty du)
             = Ok (record5 t' im r ty du).
Proof.
  revert t; induction sels as [|sel sels IH]; intros t; cbn [title_loop]; [eauto|].
  destruct (select_one card sel) as [node|]; [|apply IH].
  destruct (node_title_ok node) as [x ->]. cbn [bind truthy negb].
  rewrite setitem5_title, getitem5_title. cbn [bind truthy negb].
  destruct (nonempty x); [eauto|apply IH].
Qed.

Lemma detail_step_shape (card : Tag) (t im r ty du : str) (d : dict) :
  detail_step bracketed_netloc_ok nfkc card (record5 t im r ty du) = Ok d ->
  exists du', d = record5 t im r ty du'
              /\ (du' = du \/ exists raw, urljoin' BASE raw = Ok du').
Proof.
  unfold detail_step. intros H.
  destruct (detail_anchor card) as [a|]; [|inversion H; eauto].
  destruct (has_attr a (lit "href")) eqn:E; [|inversion H; eauto].
  destruct (has_attr_getitem _ _ E) as (href & _ & Hget).
  rewrite Hget in H. cbn [bind truthy negb] in H. inv_bind H.
  inversion H; subst. rewrite setitem5_detail_url. eauto.
Qed.

Lemma image_step_shape (card : Tag) (t im r ty du : str) (d : dict) :
  image_step bracketed_netloc_ok nfkc card (record5 t im r ty du) = Ok d ->
  exists im', d = record5 t im' r ty du
              /\ (im' = im \/ exists raw, urljoin' BASE raw = Ok im').
Proof.
  unfold image_step. intros H.
  destruct (find card (lit "img")) as [img|]; [|inversion H; eauto].
  destruct (image_src img) as [src|]; [|inversion H; eauto].
  destruct (nonempty src); [|inversion H; eauto].
  inv_bind H. inversion H; subst. rewrite setitem5_image_url. eauto.
Qed.

Lemma rating_loop_shape (card : Tag) (sels : list selector) (t im r ty du : str) :
  rating_loop card sels (record5 t im r ty du)
  = record5 t im (match first_match card sels with
                  | Some node => get_text node
                  | None => r
                  end) ty du.
Proof.
  induction sels as [|sel sels IH]; cbn [rating_loop first_match]; [reflexivity|].
  destruct (select_one card sel) as [node|]; [|exact IH].
  apply setitem5_rating.
Qed.

Lemma rating_step_shape (card : Tag) (t im ty du : str) :
  rating_step card (record5 t im [] ty du)
  = Ok (record5 t im (rating_value card) ty du).
Proof.
  unfold rating_step, rating_value. rewrite rating_loop_shape, getitem5_rating.
  cbn [bind truthy negb]. set (r := match first_match card rating_selectors with
                   | Some node => get_text node | None => [] end).
  destruct (nonempty r) eqn:Er; cbn [bind truthy negb]; [reflexivity|].
  apply nonempty_false in Er. unfold data_score.
  destruct (has_attr card (lit "data-score")) eqn:E.
  - destruct (has_attr_getitem _ _ E) as (v & Hv & ->). cbn [bind truthy negb].
    now rewrite setitem5_rating, Hv.
  - unfold has_attr in E. destruct (get card (lit "data-score")); [discriminate|].
    now rewrite Er.
Qed.

Lemma types_step_shape (card : Tag) (t im r du : str) :
  types_step isalpha lower card (record5 t im r [] du)
  = record5 t im r (types_value' card) du.
Proof.
  unfold types_step, types_value, found_types.
  destruct (types_loop card type_selectors []) as [|x l].
  - destruct (heuristic_scan isalpha card); [reflexivity|apply setitem5_types].
  - apply setitem5_types.
Qed.

(** The dictionary [parse_movie_card] returns. *)
Lemma parse_movie_card_shape (card : Tag) (page_url : str) (d : dict) :
  parse_movie_card' card page_url = Ok d ->
  exists t im du,
    d = record5 t im (rating_value card) (types_value' card) du
    /\ resolved' im /\ resolved' du.
Proof.
  unfold parse_movie_card. rewrite initial_data_record5. intros H.
  destruct (title_loop_shape card title_selectors [] [] [] [] []) as [t Ht].
  rewrite Ht in H. cbn [bind truthy negb] in H.
  inv_bind H. apply detail_step_shape in Ha as (du & -> & Hdu).
  inv_bind H. apply image_step_shape in Ha as (im & -> & Him).
  rewrite rating_step_shape in H. cbn [bind truthy negb] in H.
  rewrite types_step_shape in H. inversion H; subst.
  exists t, im, du. split; [reflexivity|]. unfold resolved.
  split; [destruct Him as [->|Him]|destruct Hdu as [->|Hdu]]; auto.
Qed.

(** What one container adds to the rows. *)
Lemma card_step_shape (i : Z) (page_url : str) (rows rows' : list dict) (c : Tag) :
  card_step' i page_url rows c = Ok rows' ->
  rows' = rows
  \/ exists t im du,
       t <> [] /\ resolved' im /\ resolved' du
       /\ rows' = rows ++ [record6 t im (rating_value c) (types_value' c) du i].
Proof.
  unfold card_step. intros H. inv_bind H.
  apply parse_movie_card_shape in Ha as (t & im & du & -> & Him & Hdu).
  rewrite setitem5_page, getitem6_title in H. cbn [bind truthy negb] in H.
  assert (Hfin : forall t' : str,
            (t0 <- getitem (record6 t' im (rating_value c) (types_value' c) du i)
                           k_title ;;
             if negb (truthy t0) then Ok rows
             else Ok (rows ++ [record6 t' im (rating_value c)
                                       (types_value' c) du i])) = Ok rows' ->
            rows' = rows
            \/ exists t im0 du0,
                 t <> [] /\ resolved' im0 /\ resolved' du0
                 /\ rows' = rows ++ [record6 t im0 (rating_value c)
                                             (types_value' c) du0 i]).
  { intros t'. rewrite getitem6_title. cbn [bind truthy negb].
    destruct (nonempty t') eqn:E; cbn [bind truthy negb]; intros H'; inversion H'; subst; auto.
    right. exists t', im, du. apply nonempty_true in E. auto. }
  destruct (nonempty t) eqn:Et; cbn [bind truthy negb] in H.
  - apply (Hfin t). exact H.
  - destruct (find c (lit "img")) as [img|]; cbn [bind truthy negb] in H; [|apply (Hfin t); exact H].
    destruct (has_attr img (lit "alt")) eqn:E; cbn [bind truthy negb] in H; [|apply (Hfin t); exact H].
    destruct (has_attr_getitem _ _ E) as (alt & _ & Halt).
    rewrite Halt in H. cbn [bind truthy negb] in H. rewrite setitem6_title in H.
    apply (Hfin (strip alt)). exact H.
Qed.

(** The rows a container is added to do not matter. *)
Lemma card_step_append (i : Z) (page_url : str) (rows : list dict) (c : Tag) :
  card_step' i page_url rows c
  = (new <- card_step' i page_url [] c ;; Ok (rows ++ new)).
Proof.
  unfold card_step.
  destruct (parse_movie_card' c page_url) as [d|e]; cbn [bind truthy negb]; [|reflexivity].
  destruct (getitem (setitem d k_page (VInt i)) k_title) as [t|e]; cbn [bind truthy negb];
    [|reflexivity].
  match goal with
  | |- bind ?m _ = _ => destruct m as [d'|e]; cbn [bind truthy negb]; [|reflexivity]
  end.
  destruct (getitem d' k_title) as [t'|e]; cbn [bind truthy negb]; [|reflexivity].
  destruct (negb (truthy t')); cbn [bind truthy negb]; [now rewrite app_nil_r|reflexivity].
Qed.

Lemma cards_loop_append (i : Z) (page_url : str) (cards : list Tag)
      (rows : list dict) :
  for_each (card_step' i page_url) cards rows
  = (new <- for_each (card_step' i page_url) cards [] ;; Ok (rows ++ new)).
Proof.
  revert rows; induction cards as [|c cards IH]; intros rows; cbn [for_each bind].
  - now rewrite app_nil_r.
  - rewrite card_step_append.
    destruct (card_step' i page_url [] c) as [new|e]; cbn [bind truthy negb]; [|reflexivity].
    rewrite IH. rewrite (IH new).
    destruct (for_each (card_step' i page_url) cards []) as [more|e]; cbn [bind truthy negb];
      [|reflexivity].
    now rewrite app_assoc.
Qed.

End ParseMovieCard.

(* ===================================================================== *)
(** * urljoin against BASE returns an absolute URL *)
(* ===================================================================== *)

Section UrlFacts.

Variable bracketed_netloc_ok : str -> bool.
Variable nfkc : str -> str.

Local Abbreviation urlparse' := (Url.urlparse bracketed_netloc_ok nfkc).
Local Abbreviation urlsplit' := (Url.urlsplit bracketed_netloc_ok nfkc).

(** [urlparse(BASE)]: scheme [https], host [ssr1.scrape.center], nothing else. *)
Lemma urlparse_BASE :
  urlparse' BASE []
  = Ok (Url.mkParse (lit "https") (lit "ssr1.scrape.center") [] [] [] []).
Proof. reflexivity. Qed.

(** A scheme found by [split_scheme] is not empty. *)
Lemma split_scheme_nonempty (url sch rest : str) :
  Url.split_scheme url = Some (sch, rest) -> nonempty sch = true.
Proof.
  unfold Url.split_scheme.
  destruct (partition 58%N url) as [[before found] after].
  destruct before as [|c0 before]; [discriminate|].
  destruct (found && Url.is_ascii_alpha c0 && forallb Url.scheme_char (c0 :: before));
    [|discriminate].
  intros H; inversion H; subst. reflexivity.
Qed.

(** The scheme [urlsplit] reports is the default or the one found in the URL. *)
Lemma urlsplit_scheme (url dflt : str) (r : Url.SplitResult) :
  urlsplit' url dflt = Ok r ->
  Url.s_scheme r = Url.sanitize_scheme dflt
  \/ exists rest,
       Url.split_scheme (Url.sanitize_url url) = Some (Url.s_scheme r, rest).
Proof.
  unfold Url.urlsplit.
  destruct (Url.split_scheme (Url.sanitize_url url)) as [[sch rest]|] eqn:Es.
  - set (u := rest).
    destruct (if str_eqb (firstn 2 u) (lit "//") then Url.splitnetloc2 u
              else ([], u)) as [netloc u'].
    repeat match goal with
           | |- (if ?c then _ else _) = _ -> _ => destruct c; [discriminate|]
           end.
    destruct (Url.split_once 35%N u') as [u1 fragment].
    destruct (Url.split_once 63%N u1) as [u2 query].
    destruct (Url.checknetloc nfkc netloc); [|discriminate].
    intros H; inversion H; subst; cbn [Url.s_scheme]. right. eauto.
  - set (u := Url.sanitize_url url).
    destruct (if str_eqb (firstn 2 u) (lit "//") then Url.splitnetloc2 u
              else ([], u)) as [netloc u'].
    repeat match goal with
           | |- (if ?c then _ else _) = _ -> _ => destruct c; [discriminate|]
           end.
    destruct (Url.split_once 35%N u') as [u1 fragment].
    destruct (Url.split_once 63%N u1) as [u2 query].
    destruct (Url.checknetloc nfkc netloc); [|discriminate].
    intros H; inversion H; subst; cbn [Url.s_scheme]. left. reflexivity.
Qed.

Lemma urlparse_scheme (url dflt : str) (u : Url.ParseResult) :
  urlparse' url dflt = Ok u ->
  Url.p_scheme u = Url.sanitize_scheme dflt
  \/ exists rest,
       Url.split_scheme (Url.sanitize_url url) = Some (Url.p_scheme u, rest).
Proof.
  unfold Url.urlparse. intros H. inv_bind H.
  apply urlsplit_scheme in Ha.
  destruct (if str_in (Url.s_scheme a) Url.uses_params
               && char_in 59%N (Url.s_path a)
            then Url.splitparams (Url.s_path a) else (Url.s_path a, []))
    as [path params].
  inversion H; subst; cbn [Url.p_scheme]. exact Ha.
Qed.

(** A URL that starts with [https:] is absolute. *)
Lemma is_absolute_https (rest : str) :
  Url.is_absolute ([104; 116; 116; 112; 115; 58]%N ++ rest) = true.
Proof. reflexivity. Qed.

(** [urlunparse] with the scheme [https] starts with [https:]. *)
Lemma urlunparse_https (netloc path params query fragment : str) :
  exists rest,
    Url.urlunparse (lit "https") netloc path params query fragment
    = [104; 116; 116; 112; 115; 58]%N ++ rest.
Proof.
  unfold Url.urlunparse, Url.urlunsplit.
  change (nonempty (lit "https")) with true.
  change (str_in (lit "https") Url.uses_netloc) with true.
  cbn [andb].
  set (u := if nonempty params then path ++ lit ";" ++ params else path).
  match goal with
  | |- context [lit "https" ++ lit ":" ++ ?x] => set (body := x)
  end.
  change (lit "https" ++ lit ":" ++ body)
    with ([104; 116; 116; 112; 115; 58]%N ++ body).
  destruct (nonempty query), (nonempty fragment);
    rewrite <- ?app_assoc; eauto.
Qed.

Lemma urljoin_BASE_absolute (url v : str) :
  Url.urljoin bracketed_netloc_ok nfkc BASE url = Ok v ->
  Url.is_absolute v = true.
Proof.
  unfold Url.urljoin. change (nonempty BASE) with true. cbn [negb].
  destruct (nonempty url); cbn [negb].
  2: { intros H; inversion H; subst. reflexivity. }
  rewrite urlparse_BASE. cbn [bind Url.p_scheme Url.p_netloc Url.p_path
                               Url.p_params Url.p_query Url.p_fragment].
  intros H. inv_bind H. rename a into u.
  destruct (negb (str_eqb (Url.p_scheme u) (lit "https"))
            || negb (str_in (Url.p_scheme u) Url.uses_relative)) eqn:Ec.
  - inversion H; subst v.
    apply urlparse_scheme in Ha as [Hd|(rest & Hs)].
    + rewrite Hd in Ec. discriminate Ec.
    + unfold Url.is_absolute, Url.url_scheme. rewrite Hs.
      exact (split_scheme_nonempty _ Hs).
  - apply orb_false_iff in Ec as [E1 _].
    apply negb_false_iff, str_eqb_eq in E1. rewrite E1 in H.
    repeat match type of H with
           | (if ?c then _ else _) = _ => destruct c
           end;
      inversion H; subst v;
      match goal with
      | |- Url.is_absolute (Url.urlunparse _ ?n ?p ?pa ?q ?f) = true =>
          destruct (urlunparse_https n p pa q f) as [rest ->];
          apply is_absolute_https
      end.
Qed.

End UrlFacts.

(* ===================================================================== *)
(** * The page loop *)
(* ===================================================================== *)

Section Pipeline.

Variable requests_get : str -> http_outcome.
Variable html_parser : str -> result (list Node).
Variable isalpha : char -> bool.
Variable lower : str -> str.
Variable bracketed_netloc_ok : str -> bool.
Variable nfkc : str -> str.

Local Abbreviation fetch' := (fetch requests_get).
Local Abbreviation urljoin' := (urljoin bracketed_netloc_ok nfkc).
Local Abbreviation resolved' := (resolved bracketed_netloc_ok nfkc).
Local Abbreviation card_step' := (card_step isalpha lower bracketed_netloc_ok nfkc).
Local Abbreviation page_step' :=
  (page_step requests_get html_parser isalpha lower bracketed_netloc_ok nfkc).
Local Abbreviation run_pages' :=
  (run_pages requests_get html_parser isalpha lower bracketed_netloc_ok nfkc).
Local Abbreviation scrape_pages' :=
  (scrape_pages requests_get html_parser isalpha lower bracketed_netloc_ok nfkc).
Local Abbreviation page_records' :=
  (page_records html_parser isalpha lower bracketed_netloc_ok nfkc).
Local Abbreviation contribution' :=
  (contribution requests_get html_parser isalpha lower bracketed_netloc_ok nfkc).
Local Abbreviation accumulate' :=
  (accumulate requests_get html_parser isalpha lower bracketed_netloc_ok nfkc).

(** A page whose fetch fails, or returns an empty body, leaves the rows as
    they are, records the fetch, and does not reach [time.sleep]. *)
Lemma page_step_failed_fetch (st : state) (i : Z) :
  fetch' (page_url_of i) = None \/ fetch' (page_url_of i) = Some [] ->
  page_step' st i
  = Ok (mkState (rows st) (trace st ++ [EvFetch (page_url_of i)])).
Proof. unfold page_step. intros [-> | ->]; reflexivity. Qed.

(** A page that yields markup ends with [time.sleep]. *)
Lemma page_step_fetched (st st' : state) (i : Z) (c : char) (html : str) :
  fetch' (page_url_of i) = Some (c :: html) ->
  page_step' st i = Ok st' ->
  trace st' = trace st ++ [EvFetch (page_url_of i); EvSleep]
  /\ exists new, page_records' i (c :: html) = Ok new
                 /\ rows st' = rows st ++ new.
Proof.
  unfold page_step, page_records. intros -> H. cbn [rows trace] in H.
  inv_bind H. rename a into top, Ha into Htop. rewrite Htop. cbn [bind].
  rewrite cards_loop_append in H. inv_bind H. inv_bind Ha.
  inversion Ha; subst a. inversion H; subst st'. cbn [rows trace].
  rewrite <- app_assoc. eauto.
Qed.

(** The rows of a run are the contributions of its pages, in page order. *)
Lemma pages_loop_rows (pages : list Z) (st : state) :
  (st' <- for_each page_step' pages st ;; Ok (rows st'))
  = (new <- accumulate' pages ;; Ok (rows st ++ new)).
Proof.
  revert st; induction pages as [|i pages IH]; intros st;
    cbn [for_each accumulate bind].
  - now rewrite app_nil_r.
  - unfold contribution.
    destruct (fetch' (page_url_of i)) as [[|c html]|] eqn:Ef.
    + rewrite page_step_failed_fetch by auto. cbn [bind].
      rewrite IH. cbn [rows].
      destruct (accumulate' pages); reflexivity.
    + unfold page_step at 1. rewrite Ef. cbn [rows trace].
      unfold page_records.
      destruct (html_parser (c :: html)) as [top|e]; cbn [bind];
        [|reflexivity].
      rewrite cards_loop_append.
      destruct (for_each (card_step' i (page_url_of i))
                         (find_cards (document top)) []) as [new|e];
        cbn [bind]; [|reflexivity].
      rewrite IH. cbn [rows].
      destruct (accumulate' pages) as [later|e]; cbn [bind]; [|reflexivity].
      now rewrite app_assoc.
    + rewrite page_step_failed_fetch by auto. cbn [bind].
      rewrite IH. cbn [rows].
      destruct (accumulate' pages); reflexivity.
Qed.

(** Every row of a run is a six-key record with a title, made from one
    container of one page of the range. *)
Lemma rows_shape (start end_ : Z) (rs : list dict) :
  scrape_pages' start end_ = Ok rs ->
  forall r, In r rs ->
    exists t im ra ty du i,
      t <> [] /\ resolved' im /\ resolved' du
      /\ (start <= i <= end_)%Z
      /\ r = record6 t im ra ty du i.
Proof.
  unfold scrape_pages, run_pages. intros H. inv_bind H.
  inversion H; subst rs; clear H. rename a into final, Ha into Hfinal.
  set (P := fun r : dict =>
              exists t im ra ty du i,
                t <> [] /\ resolved' im /\ resolved' du
                /\ (start <= i <= end_)%Z
                /\ r = record6 t im ra ty du i).
  assert (Hpages :
            forall pages st st',
              (forall i, In i pages -> (start <= i <= end_)%Z) ->
              (forall r, In r (rows st) -> P r) ->
              for_each page_step' pages st = Ok st' ->
              forall r, In r (rows st') -> P r).
  { induction pages as [|i pages IH]; intros st st' Hin Hst Hrun;
      cbn [for_each] in Hrun.
    - inversion Hrun; subst; exact Hst.
    - inv_bind Hrun. apply (IH a st'); auto using in_cons.
      assert (Hi : (start <= i <= end_)%Z) by (apply Hin; now left).
      clear IH Hrun Hin. unfold page_step in Ha.
      destruct (fetch' (page_url_of i)) as [[|c html]|];
        try (inversion Ha; subst a; exact Hst).
      cbn [rows trace] in Ha. inv_bind Ha. inv_bind Ha. inversion Ha; subst a.
      cbn [rows]. revert Ha1.
      apply (for_each_invariant (fun rows => forall r, In r rows -> P r));
        [|exact Hst].
      intros rows0 c0 rows1 Hrows Hstep r Hr.
      apply card_step_shape in Hstep as [->|(t & im & du & Ht & Him & Hdu & ->)];
        [auto|].
      apply in_app_or in Hr as [Hr|[<-|[]]]; [auto|].
      exists t, im, (rating_value c0), (types_value isalpha lower c0), du, i.
      auto. }
  apply (Hpages (range start (end_ + 1)) (mkState [] []) final); auto.
  - intros i Hi. apply range_In in Hi. lia.
  - intros r [].
Qed.

End Pipeline.

(* ===================================================================== *)
(** * Cascades, de-duplication and the types filters *)
(* ===================================================================== *)

Lemma first_match_at (card : Tag) (before : list selector) (sel : selector)
      (after : list selector) (node : Tag) :
  (forall s, In s before -> select_one card s = None) ->
  select_one card sel = Some node ->
  first_match card (before ++ sel :: after) = Some node.
Proof.
  intros Hbefore Hsel. induction before as [|s before IH]; cbn [app first_match].
  - now rewrite Hsel.
  - rewrite (Hbefore s) by now left. apply IH.
    intros s' Hs'. apply Hbefore. now right.
Qed.

Lemma first_match_none (card : Tag) (sels : list selector) :
  (forall s, In s sels -> select_one card s = None) ->
  first_match card sels = None.
Proof.
  induction sels as [|s sels IH]; intros H; cbn [first_match]; [reflexivity|].
  rewrite (H s) by now left. apply IH. intros s' Hs'. apply H. now right.
Qed.

Lemma collect_texts_eq (nodes : list Tag) (acc : list str) :
  collect_texts nodes acc = acc ++ texts nodes.
Proof. apply (fold_left_append_if get_text nonempty). Qed.

Lemma types_loop_cons (card : Tag) (sel : selector) (rest : list selector) :
  types_loop card (sel :: rest) []
  = match texts (select card sel) with
    | [] => types_loop card rest []
    | found => found
    end.
Proof.
  cbn [types_loop]. destruct (select card sel) as [|n nodes]; [reflexivity|].
  rewrite collect_texts_eq. cbn [app].
  destruct (texts (n :: nodes)); reflexivity.
Qed.

Lemma types_loop_at (card : Tag) (before : list selector) (sel : selector)
      (after : list selector) :
  (forall s, In s before -> texts (select card s) = []) ->
  texts (select card sel) <> [] ->
  types_loop card (before ++ sel :: after) [] = texts (select card sel).
Proof.
  intros Hbefore Hsel. induction before as [|s before IH]; cbn [app];
    rewrite types_loop_cons.
  - destruct (texts (select card sel)); congruence.
  - rewrite (Hbefore s) by now left. apply IH.
    intros s' Hs'. apply Hbefore. now right.
Qed.

Lemma types_loop_none (card : Tag) (sels : list selector) :
  (forall s, In s sels -> texts (select card s) = []) ->
  types_loop card sels [] = [].
Proof.
  induction sels as [|s sels IH]; intros H; [reflexivity|].
  rewrite types_loop_cons, (H s) by now left.
  apply IH. intros s' Hs'. apply H. now right.
Qed.

(** ** [dict.fromkeys]: distinct entries, in the order of first occurrence *)

Lemma fromkeys_aux_In (seen l : list str) (x : str) :
  In x (fromkeys_aux seen l) <-> In x l /\ ~ In x seen.
Proof.
  revert seen; induction l as [|y l IH]; intros seen; cbn [fromkeys_aux].
  - simpl. tauto.
  - destruct (str_in y seen) eqn:E.
    + apply str_in_In in E. rewrite IH. simpl.
      split; [tauto|]. intros [[->|H] Hn]; tauto.
    + assert (Hy : ~ In y seen).
      { intros H. apply str_in_In in H. congruence. }
      simpl. rewrite IH. simpl.
      split.
      * intros [<-|[H Hn]]; [tauto|]. split; [tauto|]. intros Hs. apply Hn. now right.
      * intros [[<-|H] Hn]; [tauto|].
        destruct (list_eq_dec N.eq_dec y x) as [->|Hne]; [tauto|].
        right. split; [assumption|]. intros [Hs|Hs]; [congruence|tauto].
Qed.

Lemma fromkeys_aux_NoDup (seen l : list str) : NoDup (fromkeys_aux seen l).
Proof.
  revert seen; induction l as [|y l IH]; intros seen; cbn [fromkeys_aux].
  - constructor.
  - destruct (str_in y seen); [apply IH|].
    constructor; [|apply IH].
    rewrite fromkeys_aux_In. intros [_ H]. apply H. now left.
Qed.

Lemma fromkeys_aux_snoc (seen l : list str) (x : str) :
  fromkeys_aux seen (l ++ [x])
  = fromkeys_aux seen l ++ (if str_in x (seen ++ l) then [] else [x]).
Proof.
  revert seen; induction l as [|y l IH]; intros seen; cbn [app fromkeys_aux].
  - rewrite app_nil_r. destruct (str_in x seen); reflexivity.
  - destruct (str_in y seen) eqn:E.
    + rewrite IH. f_equal.
      assert (Hiff : str_in x (seen ++ l) = str_in x (seen ++ y :: l)).
      { apply eq_true_iff_eq. rewrite !str_in_In, !in_app_iff. simpl.
        apply str_in_In in E. split; [tauto|]. intros [H|[<-|H]]; tauto. }
      now rewrite Hiff.
    + rewrite IH. cbn [app]. f_equal. f_equal.
      assert (Hiff : str_in x (y :: seen ++ l) = str_in x (seen ++ y :: l)).
      { apply eq_true_iff_eq. rewrite !str_in_In. simpl.
        rewrite !in_app_iff. simpl. tauto. }
      now rewrite Hiff.
Qed.

Lemma fromkeys_In (l : list str) (x : str) : In x (fromkeys l) <-> In x l.
Proof. unfold fromkeys. rewrite fromkeys_aux_In. simpl. tauto. Qed.

Lemma fromkeys_NoDup (l : list str) : NoDup (fromkeys l).
Proof. apply fromkeys_aux_NoDup. Qed.

Lemma fromkeys_snoc (l : list str) (x : str) :
  fromkeys (l ++ [x]) = fromkeys l ++ (if str_in x l then [] else [x]).
Proof. unfold fromkeys. now rewrite fromkeys_aux_snoc. Qed.

(** ** The filters of the types field *)

Lemma clean_types_filter (lower : str -> str) (types_found : list str) :
  clean_types lower types_found
  = filter (fun t => nonempty t && negb (str_in (lower t) noise_tokens))
           (map normalise types_found).
Proof.
  unfold clean_types.
  exact (fold_left_append_if normalise
           (fun t => nonempty t && negb (str_in (lower t) noise_tokens))
           types_found []).
Qed.

Lemma heuristic_scan_filter (isalpha : char -> bool) (card : Tag) :
  heuristic_scan isalpha card
  = filter (heuristic_accept isalpha)
           (map get_text (find_all_limit card [lit "span"; lit "p"] 6)).
Proof.
  unfold heuristic_scan.
  exact (fold_left_append_if get_text (heuristic_accept isalpha) _ []).
Qed.

Lemma heuristic_cards_filter (soup : Tag) :
  heuristic_cards soup
  = filter (fun p => is_some (find p (lit "img")) && is_some (find p (lit "a")))
           (find_all soup [lit "article"; lit "li"; lit "div"]).
Proof.
  unfold heuristic_cards.
  exact (fold_left_append_filter
           (fun p => is_some (find p (lit "img")) && is_some (find p (lit "a")))
           _ []).
Qed.

(* ===================================================================== *)
(** * The loops against the result of a run *)
(* ===================================================================== *)

Section RunResultFacts.

Variable requests_get : str -> http_outcome.
Variable html_parser : str -> result (list Node).
Variable isalpha : char -> bool.
Variable lower : str -> str.
Variable bracketed_netloc_ok : str -> bool.
Variable nfkc : str -> str.

Local Abbreviation parse_movie_card' :=
  (parse_movie_card isalpha lower bracketed_netloc_ok nfkc).
Local Abbreviation card_step' := (card_step isalpha lower bracketed_netloc_ok nfkc).
Local Abbreviation record_of' := (record_of isalpha lower bracketed_netloc_ok nfkc).
Local Abbreviation records_of_cards' :=
  (records_of_cards isalpha lower bracketed_netloc_ok nfkc).
Local Abbreviation records_of_page' :=
  (records_of_page html_parser isalpha lower bracketed_netloc_ok nfkc).
Local Abbreviation page_records' :=
  (page_records html_parser isalpha lower bracketed_netloc_ok nfkc).
Local Abbreviation contribution' :=
  (contribution requests_get html_parser isalpha lower bracketed_netloc_ok nfkc).
Local Abbreviation page_result' :=
  (page_result requests_get html_parser isalpha lower bracketed_netloc_ok nfkc).
Local Abbreviation accumulate' :=
  (accumulate requests_get html_parser isalpha lower bracketed_netloc_ok nfkc).
Local Abbreviation run_result' :=
  (run_result requests_get html_parser isalpha lower bracketed_netloc_ok nfkc).

(** One turn of the loop over the containers appends the record of the
    container. *)
Lemma card_step_record_of (i : Z) (rows : list dict) (c : Tag) :
  card_step' i (page_url_of i) rows c
  = (new <- record_of' i c ;; Ok (rows ++ new)).
Proof.
  unfold card_step, record_of.
  destruct (parse_movie_card' c (page_url_of i)) as [d|e] eqn:Ep; cbn [bind];
    [|reflexivity].
  destruct (parse_movie_card_shape _ _ _ _ _ _ Ep)
    as (t & im & du & -> & _ & _).
  rewrite setitem5_page, getitem6_title, getitem5_title. cbn [bind truthy].
  unfold alt_title, has_attr, tag_getitem.
  destruct (nonempty t) eqn:Et; cbn [negb bind].
  - rewrite getitem6_title. cbn [bind truthy]. rewrite Et. cbn [negb].
    now rewrite setitem6_title.
  - destruct (find c (lit "img")) as [img|]; cbn [bind].
    + destruct (get img (lit "alt")) as [alt|]; cbn [bind].
      * rewrite setitem6_title, getitem6_title. cbn [bind truthy].
        destruct (nonempty (strip alt)); cbn [negb];
          [reflexivity|now rewrite app_nil_r].
      * rewrite getitem6_title. cbn [bind truthy]. rewrite Et. cbn [negb].
        now rewrite app_nil_r.
    + rewrite getitem6_title. cbn [bind truthy]. rewrite Et. cbn [negb].
      now rewrite app_nil_r.
Qed.

Lemma cards_loop_records_of (i : Z) (cards : list Tag) :
  for_each (card_step' i (page_url_of i)) cards [] = records_of_cards' i cards.
Proof.
  induction cards as [|c cards IH]; cbn [for_each records_of_cards];
    [reflexivity|].
  rewrite card_step_record_of.
  destruct (record_of' i c) as [r|e]; cbn [bind app]; [|reflexivity].
  rewrite cards_loop_append, IH.
  destruct (records_of_cards' i cards); reflexivity.
Qed.

Lemma page_records_records_of_page (i : Z) (html : str) :
  page_records' i html = records_of_page' i html.
Proof.
  unfold page_records, records_of_page.
  destruct (html_parser html) as [top|e]; cbn [bind]; [|reflexivity].
  apply cards_loop_records_of.
Qed.

Lemma accumulate_run_result (pages : list Z) :
  accumulate' pages = run_result' pages.
Proof.
  induction pages as [|i pages IH]; cbn [accumulate run_result]; [reflexivity|].
  rewrite IH. unfold contribution, page_result.
  destruct (fetch requests_get (page_url_of i)) as [[|c html]|]; try reflexivity.
  now rewrite page_records_records_of_page.
Qed.

End RunResultFacts.

(* ===================================================================== *)
(** * Properties of the specification *)
(* ===================================================================== *)

Section Properties.

Variable requests_get : str -> http_outcome.
Variable html_parser : str -> result (list Node).
Variable isalpha : char -> bool.
Variable lower : str -> str.
Variable bracketed_netloc_ok : str -> bool.
Variable nfkc : str -> str.

Local Abbreviation fetch' := (fetch requests_get).
Local Abbreviation urljoin' := (urljoin bracketed_netloc_ok nfkc).
Local Abbreviation parse_movie_card' :=
  (parse_movie_card isalpha lower bracketed_netloc_ok nfkc).
Local Abbreviation card_step' := (card_step isalpha lower bracketed_netloc_ok nfkc).
Local Abbreviation scrape_pages' :=
  (scrape_pages requests_get html_parser isalpha lower bracketed_netloc_ok nfkc).
Local Abbreviation accumulate' :=
  (accumulate requests_get html_parser isalpha lower bracketed_netloc_ok nfkc).
Local Abbreviation run_result' :=
  (run_result requests_get html_parser isalpha lower bracketed_netloc_ok nfkc).
Local Abbreviation records_of_page' :=
  (records_of_page html_parser isalpha lower bracketed_netloc_ok nfkc).

(** C1.  A run over the inclusive range [start..end_] returns the
    concatenation, in page order, of the results of its pages
    ([run_result]): a page whose fetch failed gives nothing, and a fetched
    page gives, for each of its containers in the order in which they were
    found, the record of the container ([record_of]) or nothing when the
    container has no title.  The run raises exactly when the parser or the
    extraction raises on a fetched page, never because of a failed fetch:
    a page whose fetch fails can be removed from the range without changing
    the outcome of the run.  (An empty body is skipped like a failure; a
    parser that finds no node in the empty text finds no record there
    either.) *)
Theorem C1_failed_fetch_is_isolated (start end_ : Z) :
  scrape_pages' start end_ = run_result' (range start (end_ + 1))
  /\ (forall i before after,
        fetch' (page_url_of i) = None ->
        run_result' (before ++ i :: after) = run_result' (before ++ after))
  /\ (forall i, html_parser [] = Ok [] -> records_of_page' i [] = Ok []).
Proof.
  split; [|split].
  - unfold scrape_pages, run_pages.
    rewrite (pages_loop_rows requests_get html_parser isalpha lower
               bracketed_netloc_ok nfkc).
    rewrite accumulate_run_result.
    cbn [rows app]. destruct (run_result' (range start (end_ + 1))); reflexivity.
  - intros i before after Hfail.
    induction before as [|j before IH]; cbn [app run_result].
    + unfold page_result. rewrite Hfail. cbn [bind app].
      destruct (run_result' after); reflexivity.
    + now rewrite IH.
  - intros i Hempty. unfold records_of_page. rewrite Hempty. reflexivity.
Qed.

(** C2.  Every record of the list a run returns has a title, and the title
    is not the empty string. *)
Theorem C2_every_row_has_a_title (start end_ : Z) (rs : list dict) :
  scrape_pages' start end_ = Ok rs ->
  forall r, In r rs ->
    exists t, getitem r k_title = Ok (VStr t) /\ t <> [].
Proof.
  intros Hrun r Hr.
  destruct (rows_shape _ _ _ _ _ _ _ _ Hrun r Hr)
    as (t & im & ra & ty & du & i & Ht & _ & _ & _ & ->).
  exists t. split; [apply getitem6_title|exact Ht].
Qed.

(** C6.  In every record of the list a run returns, [image_url] and
    [detail_url] are strings, and each of them that is not empty is the
    result of [urljoin(BASE, raw)] for some [raw] and is an absolute URL. *)
Theorem C6_urls_are_absolute (start end_ : Z) (rs : list dict) :
  scrape_pages' start end_ = Ok rs ->
  forall r, In r rs ->
    exists im du,
      getitem r k_image_url = Ok (VStr im)
      /\ getitem r k_detail_url = Ok (VStr du)
      /\ (im <> [] ->
          Url.is_absolute im = true /\ exists raw, urljoin' BASE raw = Ok im)
      /\ (du <> [] ->
          Url.is_absolute du = true /\ exists raw, urljoin' BASE raw = Ok du).
Proof.
  intros Hrun r Hr.
  destruct (rows_shape _ _ _ _ _ _ _ _ Hrun r Hr)
    as (t & im & ra & ty & du & i & _ & Him & Hdu & _ & ->).
  exists im, du.
  split; [apply getitem6_image_url|].
  split; [apply getitem6_detail_url|].
  split; intros Hne.
  - destruct Him as [->|(raw & Hraw)]; [congruence|].
    split; [exact (urljoin_BASE_absolute _ _ _ Hraw)|eauto].
  - destruct Hdu as [->|(raw & Hraw)]; [congruence|].
    split; [exact (urljoin_BASE_absolute _ _ _ Hraw)|eauto].
Qed.

(** C7, as amended.  Every record of the list a run returns holds exactly
    the six keys, none absent, in the insertion order title, image_url,
    rating, types, detail_url, page; the row [save_csv] hands to the writer
    holds the same values under the keys in the order of the schema: title,
    image_url, rating, types, page, detail_url. *)
Theorem C7_six_keys_schema_order_in_writer (start end_ : Z) (rs : list dict) :
  scrape_pages' start end_ = Ok rs ->
  forall r, In r rs ->
    keys r = [k_title; k_image_url; k_rating; k_types; k_detail_url; k_page]
    /\ keys (csv_row r) = fieldnames
    /\ forall k, In k fieldnames ->
         exists v, getitem r k = Ok v /\ getitem (csv_row r) k = Ok v.
Proof.
  intros Hrun r Hr.
  destruct (rows_shape _ _ _ _ _ _ _ _ Hrun r Hr)
    as (t & im & ra & ty & du & i & _ & _ & _ & _ & ->).
  split; [apply keys_record6|]. split; [reflexivity|].
  intros k Hk. unfold fieldnames in Hk. simpl in Hk.
  destruct Hk as [<-|[<-|[<-|[<-|[<-|[<-|[]]]]]]];
    eexists; split; reflexivity.
Qed.

(** C9, as amended.  The rating is the text of the node of the first rating
    selector that matches, when that text is not empty; the value of the
    container's [data-score] attribute (the empty string when it has none)
    is used when that text is empty, and when no rating selector matches. *)
Theorem C9_rating_fallback_on_empty_text (card : Tag) (page_url : str) (d : dict) :
  parse_movie_card' card page_url = Ok d ->
  (forall before sel after node,
      rating_selectors = before ++ sel :: after ->
      (forall s, In s before -> select_one card s = None) ->
      select_one card sel = Some node ->
      getitem d k_rating
      = Ok (VStr (if nonempty (get_text node) then get_text node
                  else data_score card)))
  /\ ((forall s, In s rating_selectors -> select_one card s = None) ->
      getitem d k_rating = Ok (VStr (data_score card))).
Proof.
  intros Hparse.
  apply parse_movie_card_shape in Hparse as (t & im & du & -> & _ & _).
  rewrite getitem5_rating. unfold rating_value. split.
  - intros before sel after node Hsplit Hbefore Hsel.
    rewrite Hsplit, (first_match_at card before sel after Hbefore Hsel).
    reflexivity.
  - intros Hnone. now rewrite (first_match_none card rating_selectors Hnone).
Qed.

(** C8, as amended.  The types entries come from the first selector of the
    cascade that matches a node with a non-empty text (selectors whose nodes
    all have an empty text are passed over); every such node of that
    selector contributes its text; the entries are normalised, the empty
    and the noise ones dropped, duplicates removed keeping the first
    occurrence, and the rest joined with [;]. *)
Theorem C8_types_from_first_selector_with_text
        (card : Tag) (page_url : str) (d : dict) :
  parse_movie_card' card page_url = Ok d ->
  forall before sel after,
    type_selectors = before ++ sel :: after ->
    (forall s, In s before -> texts (select card s) = []) ->
    texts (select card sel) <> [] ->
    let entries := fromkeys (clean_types lower (texts (select card sel))) in
    getitem d k_types = Ok (VStr (join (lit ";") entries))
    /\ NoDup entries
    /\ (forall x, In x entries <->
                  In x (clean_types lower (texts (select card sel)))).
Proof.
  intros Hparse before sel after Hsplit Hbefore Hsel entries.
  apply parse_movie_card_shape in Hparse as (t & im & du & -> & _ & _).
  rewrite getitem5_types.
  split; [|split; [apply fromkeys_NoDup|intros x; apply fromkeys_In]].
  unfold types_value, found_types.
  rewrite Hsplit, (types_loop_at card before sel after Hbefore Hsel).
  destruct (texts (select card sel)) as [|x l]; [congruence|reflexivity].
Qed.

(** C5, as amended.  Each collected string has its newlines replaced by
    spaces and is stripped; an entry is dropped exactly when the result is
    empty or its lower-case form is one of [new], [2020], [2021]; the
    others are kept, in order. *)
Theorem C5_noise_tokens_are_new_2020_2021 (types_found : list str) :
  clean_types lower types_found
  = filter (fun t => nonempty t && negb (str_in (lower t) noise_tokens))
           (map normalise types_found)
  /\ forall t,
       In t (clean_types lower types_found) <->
       exists raw,
         In raw types_found /\ t = strip (replace_char 10%N 32%N raw)
         /\ t <> []
         /\ ~ In (lower t) [lit "new"; lit "2020"; lit "2021"].
Proof.
  split; [apply clean_types_filter|].
  intros t. rewrite clean_types_filter, filter_In, in_map_iff.
  rewrite andb_true_iff, negb_true_iff, nonempty_true.
  split.
  - intros ((raw & <- & Hraw) & Hne & Hnoise).
    exists raw. repeat split; auto.
    intros Hin. apply str_in_In in Hin. unfold noise_tokens in Hnoise. congruence.
  - intros (raw & Hraw & -> & Hne & Hnoise).
    split; [exists raw; auto|]. split; [assumption|].
    destruct (str_in (lower (strip (replace_char 10%N 32%N raw))) noise_tokens)
      eqn:E; [|reflexivity].
    apply str_in_In in E. contradiction.
Qed.

(** C10.  When no card selector matches, the containers are all the
    [article], [li] and [div] elements that have an [img] and an [a] below
    them, in document order, nested ones included; there is markup with a
    single listing for which two containers are found, one inside the
    other, and two records are produced. *)
Theorem C10_nested_containers_are_both_accepted :
  (forall soup,
      select_cards soup card_selectors = [] ->
      find_cards soup
      = filter (fun p => is_some (find p (lit "img")) && is_some (find p (lit "a")))
               (find_all soup [lit "article"; lit "li"; lit "div"]))
  /\ exists outer inner r,
       select_cards (document Sample.nested_listing) card_selectors = []
       /\ find_cards (document Sample.nested_listing) = [outer; inner]
       /\ In inner (descendants outer)
       /\ for_each (card_step' 1 (page_url_of 1))
                   (find_cards (document Sample.nested_listing)) []
          = Ok [r; r].
Proof.
  split.
  - intros soup Hnone. unfold find_cards. rewrite Hnone.
    apply heuristic_cards_filter.
  - eexists _, _, _.
    split; [vm_compute; reflexivity|].
    split; [vm_compute; reflexivity|].
    split; [vm_compute; left; reflexivity|].
    vm_compute. reflexivity.
Qed.

End Properties.

(** The condition of the types heuristic, spelled out: a text is accepted
    when it is non-empty, at most 40 characters long and has an alphabetic
    character, and also whenever it has a CJK ideograph. *)
Lemma heuristic_accept_iff (isalpha : char -> bool) (txt : str) :
  heuristic_accept isalpha txt = true <->
  (txt <> [] /\ List.length txt <= 40
   /\ exists c, In c txt /\ isalpha c = true)
  \/ exists c, In c txt /\ is_cjk c = true.
Proof.
  unfold heuristic_accept.
  rewrite orb_true_iff, !andb_true_iff, !existsb_exists, nonempty_true.
  rewrite !Nat.leb_le.
  split.
  - intros [[[[Hne _] Hlen] Ha]|Hc]; [left|right]; auto.
  - intros [(Hne & Hlen & Ha)|Hc]; [left|right]; auto.
    repeat split; auto. destruct txt; [congruence|simpl; lia].
Qed.

(* ===================================================================== *)
(** * The properties on the sample site *)
(* ===================================================================== *)

Local Abbreviation sample_run_result :=
  (run_result Sample.requests_get Sample.html_parser Sample.isalpha
              Sample.lower Sample.bracketed_netloc_ok Sample.nfkc).

(** On the sample site the request for page 3 fails; pages 1, 2, 4 and 5
    give their records, in page order. *)
Lemma sample_run_1_5 :
  Sample.scrape 1 5 = Ok Sample.rows_1_5
  /\ map (fun r => getitem r k_page) Sample.rows_1_5
     = [Ok (VInt 1); Ok (VInt 2); Ok (VInt 4); Ok (VInt 5)].
Proof. split; vm_compute; reflexivity. Qed.

Lemma C1_witness :
  Sample.scrape 1 5 = sample_run_result (range 1 (5 + 1))
  /\ sample_run_result [1; 2; 3; 4; 5]%Z = sample_run_result [1; 2; 4; 5]%Z
  /\ sample_run_result [1; 2; 4; 5]%Z = Ok Sample.rows_1_5
  /\ map (fun r => getitem r k_title) Sample.rows_1_5
     = map (fun t => Ok (VStr (lit t)))
           ["Farewell My Concubine"; "Leon"; "Titanic"; "Roman Holiday"]%string
  /\ map (fun r => getitem r k_page) Sample.rows_1_5
     = [Ok (VInt 1); Ok (VInt 2); Ok (VInt 4); Ok (VInt 5)].
Proof.
  destruct (C1_failed_fetch_is_isolated
              Sample.requests_get Sample.html_parser Sample.isalpha
              Sample.lower Sample.bracketed_netloc_ok Sample.nfkc 1 5)
    as (Hrun & Hdrop & _).
  split; [exact Hrun|].
  split; [apply (Hdrop 3%Z [1; 2]%Z [4; 5]%Z); vm_compute; reflexivity|].
  repeat split; vm_compute; reflexivity.
Defined.

Lemma C2_witness :
  Sample.scrape 1 5 = Ok Sample.rows_1_5
  /\ In Sample.row_leon Sample.rows_1_5
  /\ exists t, getitem Sample.row_leon k_title = Ok (VStr t) /\ t <> [].
Proof.
  assert (Hrun : Sample.scrape 1 5 = Ok Sample.rows_1_5)
    by (vm_compute; reflexivity).
  assert (Hin : In Sample.row_leon Sample.rows_1_5)
    by (right; left; reflexivity).
  split; [exact Hrun|]. split; [exact Hin|].
  exact (C2_every_row_has_a_title
           Sample.requests_get Sample.html_parser Sample.isalpha
           Sample.lower Sample.bracketed_netloc_ok Sample.nfkc
           1 5 Hrun Sample.row_leon Hin).
Defined.

(** C3.  The run over pages 3 and 4 of the sample site: the fetch of page 3
    fails, and the next effect is the fetch of page 4; [time.sleep] is
    reached only after page 4. *)
Theorem C3_no_delay_after_failed_fetch :
  fetch Sample.requests_get (page_url_of 3) = None
  /\ exists st,
       Sample.run 3 4 = Ok st
       /\ trace st
          = [EvFetch (page_url_of 3); EvFetch (page_url_of 4); EvSleep].
Proof.
  split; [vm_compute; reflexivity|].
  eexists. split; vm_compute; reflexivity.
Qed.

(** C4.  A text of 41 CJK ideographs is longer than the bound of 40 and is
    accepted by the heuristic, whatever the alphabetic table; the container
    whose only [span] holds it gets it as its types. *)
Theorem C4_heuristic_accepts_long_cjk_text :
  List.length Sample.long_cjk = 41
  /\ (forall isalpha, heuristic_accept isalpha Sample.long_cjk = true)
  /\ Sample.parse (Sample.top_tag Sample.card_long_span)
     = Ok Sample.parsed_long_span
  /\ getitem Sample.parsed_long_span k_types = Ok (VStr Sample.long_cjk).
Proof.
  split; [reflexivity|]. split; [intros isalpha; reflexivity|].
  split; vm_compute; reflexivity.
Qed.

Lemma C5_counterexample :
  Sample.parse (Sample.top_tag Sample.card_year) = Ok Sample.parsed_year
  /\ getitem Sample.parsed_year k_types = Ok (VStr (lit "1999")).
Proof. split; vm_compute; reflexivity. Qed.

Lemma C5_witness :
  In (lit "1999") (clean_types Sample.lower [lit " 1999"; lit "New"]).
Proof.
  destruct (C5_noise_tokens_are_new_2020_2021
              Sample.lower [lit " 1999"; lit "New"]) as [_ Hiff].
  apply Hiff. exists (lit " 1999").
  split; [left; reflexivity|]. split; [vm_compute; reflexivity|].
  split; [vm_compute; discriminate|].
  vm_compute. intros [H|[H|[H|[]]]]; discriminate H.
Defined.

Lemma C6_witness :
  Sample.scrape 1 5 = Ok Sample.rows_1_5
  /\ In Sample.row_leon Sample.rows_1_5
  /\ exists im du,
       getitem Sample.row_leon k_image_url = Ok (VStr im)
       /\ getitem Sample.row_leon k_detail_url = Ok (VStr du)
       /\ (im <> [] ->
           Url.is_absolute im = true
           /\ exists raw, urljoin Sample.bracketed_netloc_ok Sample.nfkc
                                  BASE raw = Ok im)
       /\ (du <> [] ->
           Url.is_absolute du = true
           /\ exists raw, urljoin Sample.bracketed_netloc_ok Sample.nfkc
                                  BASE raw = Ok du).
Proof.
  assert (Hrun : Sample.scrape 1 5 = Ok Sample.rows_1_5)
    by (vm_compute; reflexivity).
  assert (Hin : In Sample.row_leon Sample.rows_1_5)
    by (right; left; reflexivity).
  split; [exact Hrun|]. split; [exact Hin|].
  exact (C6_urls_are_absolute
           Sample.requests_get Sample.html_parser Sample.isalpha
           Sample.lower Sample.bracketed_netloc_ok Sample.nfkc
           1 5 Hrun Sample.row_leon Hin).
Defined.

Lemma C7_counterexample :
  Sample.scrape 1 5 = Ok Sample.rows_1_5
  /\ In Sample.row_leon Sample.rows_1_5
  /\ keys Sample.row_leon
     = [k_title; k_image_url; k_rating; k_types; k_detail_url; k_page]
  /\ keys Sample.row_leon <> fieldnames.
Proof.
  split; [vm_compute; reflexivity|].
  split; [right; left; reflexivity|].
  split; [reflexivity|]. vm_compute. discriminate.
Qed.

Lemma C7_witness :
  Sample.scrape 1 5 = Ok Sample.rows_1_5
  /\ In Sample.row_leon Sample.rows_1_5
  /\ keys Sample.row_leon
     = [k_title; k_image_url; k_rating; k_types; k_detail_url; k_page]
  /\ keys (csv_row Sample.row_leon) = fieldnames.
Proof.
  assert (Hrun : Sample.scrape 1 5 = Ok Sample.rows_1_5)
    by (vm_compute; reflexivity).
  assert (Hin : In Sample.row_leon Sample.rows_1_5)
    by (right; left; reflexivity).
  split; [exact Hrun|]. split; [exact Hin|].
  destruct (C7_six_keys_schema_order_in_writer
              Sample.requests_get Sample.html_parser Sample.isalpha
              Sample.lower Sample.bracketed_netloc_ok Sample.nfkc
              1 5 Hrun Sample.row_leon Hin) as (Hkeys & Hcsv & _).
  split; assumption.
Defined.

Lemma C8_counterexample :
  exists node,
    select (Sample.top_tag Sample.card_empty_types) [cls "types"] = [node]
    /\ get_text node = []
    /\ Sample.parse (Sample.top_tag Sample.card_empty_types)
       = Ok Sample.parsed_empty_types
    /\ getitem Sample.parsed_empty_types k_types = Ok (VStr (lit "Drama")).
Proof.
  eexists. split; [vm_compute; reflexivity|].
  split; [reflexivity|]. split; vm_compute; reflexivity.
Qed.

Lemma C8_witness :
  Sample.parse (Sample.top_tag Sample.card_three_types)
  = Ok Sample.parsed_three_types
  /\ getitem Sample.parsed_three_types k_types
     = Ok (VStr (lit "Drama;Action")).
Proof.
  assert (Hparse : Sample.parse (Sample.top_tag Sample.card_three_types)
                   = Ok Sample.parsed_three_types)
    by (vm_compute; reflexivity).
  split; [exact Hparse|].
  destruct (C8_types_from_first_selector_with_text
              Sample.isalpha Sample.lower Sample.bracketed_netloc_ok
              Sample.nfkc (Sample.top_tag Sample.card_three_types)
              (page_url_of 1) Hparse
              [] [cls "types"] (tl type_selectors))
    as (Htypes & _ & _).
  - reflexivity.
  - intros s [].
  - vm_compute. discriminate.
  - rewrite Htypes. vm_compute. reflexivity.
Defined.

Lemma C9_counterexample :
  exists node,
    select_one (Sample.top_tag Sample.card_empty_score) [cls "score"] = Some node
    /\ get_text node = []
    /\ Sample.parse (Sample.top_tag Sample.card_empty_score)
       = Ok Sample.parsed_empty_score
    /\ getitem Sample.parsed_empty_score k_rating = Ok (VStr (lit "9.0")).
Proof.
  eexists. split; [vm_compute; reflexivity|].
  split; [reflexivity|]. split; vm_compute; reflexivity.
Qed.

Lemma C9_witness :
  Sample.parse (Sample.top_tag Sample.card_empty_score)
  = Ok Sample.parsed_empty_score
  /\ getitem Sample.parsed_empty_score k_rating = Ok (VStr (lit "9.0")).
Proof.
  assert (Hparse : Sample.parse (Sample.top_tag Sample.card_empty_score)
                   = Ok Sample.parsed_empty_score)
    by (vm_compute; reflexivity).
  split; [exact Hparse|].
  destruct (C9_rating_fallback_on_empty_text
              Sample.isalpha Sample.lower Sample.bracketed_netloc_ok
              Sample.nfkc (Sample.top_tag Sample.card_empty_score)
              (page_url_of 1) Hparse) as [Hfirst _].
  rewrite (Hfirst [] [cls "score"] (tl rating_selectors)
                  (mkTag [(lit "div", attrs (Sample.top_tag Sample.card_empty_score));
                          (lit "[document]", [])]
                         (lit "span") [(lit "class", lit "score")] [])).
  - vm_compute. reflexivity.
  - reflexivity.
  - intros s [].
  - vm_compute. reflexivity.
Defined.

Lemma C10_witness :
  select_cards (document Sample.nested_listing) card_selectors = []
  /\ List.length (find_cards (document Sample.nested_listing)) = 2.
Proof.
  destruct (C10_nested_containers_are_both_accepted
              Sample.isalpha Sample.lower Sample.bracketed_netloc_ok Sample.nfkc)
    as [Hscan _].
  assert (Hnone : select_cards (document Sample.nested_listing) card_selectors = [])
    by (vm_compute; reflexivity).
  split; [exact Hnone|].
  rewrite (Hscan (document Sample.nested_listing) Hnone).
  vm_compute. reflexivity.
Defined.

(* ===================================================================== *)
(** * Further properties of the script *)
(* ===================================================================== *)

(** ** Queries on the tree *)

Lemma hd_error_In {A} (l : list A) (x : A) : hd_error l = Some x -> In x l.
Proof. destruct l; simpl; [discriminate|]. intros H; inversion H; now left. Qed.

Lemma hd_error_nil {A} (l : list A) : hd_error l = None -> l = [].
Proof. destruct l; simpl; [reflexivity|discriminate]. Qed.

Lemma select_In (card : Tag) (sel : selector) (t : Tag) :
  In t (select card sel) <-> In t (descendants card) /\ matches sel t = true.
Proof. unfold select. apply filter_In. Qed.

Lemma select_one_Some (card : Tag) (sel : selector) (t : Tag) :
  select_one card sel = Some t ->
  In t (descendants card) /\ matches sel t = true.
Proof. intros H. apply hd_error_In in H. now apply select_In. Qed.

Lemma select_one_None (card : Tag) (sel : selector) :
  select_one card sel = None -> select card sel = [].
Proof. apply hd_error_nil. Qed.

Lemma find_all_In (card : Tag) (names : list str) (t : Tag) :
  In t (find_all card names) <-> In t (descendants card) /\ In (name t) names.
Proof. unfold find_all. rewrite filter_In, str_in_In. reflexivity. Qed.

Lemma find_Some (card : Tag) (nm : str) (t : Tag) :
  find card nm = Some t -> In t (descendants card) /\ name t = nm.
Proof.
  intros H. apply hd_error_In, find_all_In in H as [Hd [Hn|[]]]. auto.
Qed.

Lemma find_None (card : Tag) (nm : str) (t : Tag) :
  find card nm = None -> In t (descendants card) -> name t <> nm.
Proof.
  intros H Hd Hn. apply hd_error_nil in H.
  assert (Hin : In t (find_all card [nm])).
  { apply find_all_In. split; [assumption|now left]. }
  rewrite H in Hin. destruct Hin.
Qed.

(** ['a[href]'] matches the [a] elements that have an [href]. *)
Lemma matches_a_href (t : Tag) :
  matches [tag_attr "a" "href"] t
  = str_eqb (lit "a") (name t) && has_attr t (lit "href").
Proof.
  unfold matches, match_compound, has_attr, get. cbn.
  now rewrite !andb_true_r.
Qed.

(** ** The exact result of [parse_movie_card] and of one container *)

Section Exact.

Variable isalpha : char -> bool.
Variable lower : str -> str.
Variable bracketed_netloc_ok : str -> bool.
Variable nfkc : str -> str.

Local Abbreviation urljoin' := (urljoin bracketed_netloc_ok nfkc).
Local Abbreviation parse_movie_card' :=
  (parse_movie_card isalpha lower bracketed_netloc_ok nfkc).
Local Abbreviation card_step' := (card_step isalpha lower bracketed_netloc_ok nfkc).
Local Abbreviation detail_value' := (detail_value bracketed_netloc_ok nfkc).
Local Abbreviation image_value' := (image_value bracketed_netloc_ok nfkc).
Local Abbreviation types_value' := (types_value isalpha lower).

Lemma node_title_exact (node : Tag) :
  node_title node = Ok (node_title_value node).
Proof.
  unfold node_title, node_title_value, has_attr, tag_getitem.
  destruct (get node k_title) as [v|]; cbn [bind]; [|reflexivity].
  destruct (nonempty (strip v)); reflexivity.
Qed.

Lemma title_loop_exact (card : Tag) (sels : list selector) (im r ty du : str) :
  title_loop card sels (record5 [] im r ty du)
  = Ok (record5 (title_cascade card sels) im r ty du).
Proof.
  induction sels as [|sel sels IH]; cbn [title_loop title_cascade];
    [reflexivity|].
  destruct (select_one card sel) as [node|]; [|exact IH].
  rewrite node_title_exact. cbn [bind].
  rewrite setitem5_title, getitem5_title. cbn [bind truthy].
  destruct (nonempty (node_title_value node)) eqn:E; [reflexivity|].
  apply nonempty_false in E. rewrite E. exact IH.
Qed.

Lemma detail_step_exact (card : Tag) (t im r ty : str) :
  detail_step bracketed_netloc_ok nfkc card (record5 t im r ty [])
  = (du <- detail_value' card ;; Ok (record5 t im r ty du)).
Proof.
  unfold detail_step, detail_value, has_attr, tag_getitem.
  destruct (detail_anchor card) as [a|]; [|reflexivity].
  destruct (get a (lit "href")) as [href|]; [|reflexivity].
  cbn [bind]. destruct (urljoin' BASE href); reflexivity.
Qed.

Lemma image_step_exact (card : Tag) (t r ty du : str) :
  image_step bracketed_netloc_ok nfkc card (record5 t [] r ty du)
  = (im <- image_value' card ;; Ok (record5 t im r ty du)).
Proof.
  unfold image_step, image_value.
  destruct (find card (lit "img")) as [img|]; [|reflexivity].
  destruct (image_src img) as [[|c src]|]; reflexivity.
Qed.

Lemma parse_movie_card_exact (card : Tag) (page_url : str) :
  parse_movie_card' card page_url
  = (du <- detail_value' card ;;
     im <- image_value' card ;;
     Ok (record5 (title_cascade card title_selectors) im
                 (rating_value card) (types_value' card) du)).
Proof.
  unfold parse_movie_card. rewrite initial_data_record5, title_loop_exact.
  cbn [bind]. rewrite detail_step_exact.
  destruct (detail_value' card) as [du|e]; cbn [bind]; [|reflexivity].
  rewrite image_step_exact.
  destruct (image_value' card) as [im|e]; cbn [bind]; [|reflexivity].
  rewrite rating_step_shape. cbn [bind]. now rewrite types_step_shape.
Qed.

Lemma card_step_exact (i : Z) (page_url : str) (rows : list dict) (c : Tag)
      (t im ra ty du : str) :
  parse_movie_card' c page_url = Ok (record5 t im ra ty du) ->
  card_step' i page_url rows c
  = Ok (let t' := if nonempty t then t else alt_title c in
        if nonempty t' then rows ++ [record6 t' im ra ty du i] else rows).
Proof.
  intros Hparse. unfold card_step. rewrite Hparse. cbn [bind].
  rewrite setitem5_page, getitem6_title. cbn [bind truthy].
  unfold alt_title, has_attr, tag_getitem.
  destruct (nonempty t) eqn:Et; cbn [negb bind].
  - rewrite getitem6_title. cbn [bind truthy]. rewrite Et. reflexivity.
  - destruct (find c (lit "img")) as [img|]; cbn [bind].
    + destruct (get img (lit "alt")) as [alt|]; cbn [bind].
      * rewrite setitem6_title, getitem6_title. cbn [bind truthy].
        destruct (nonempty (strip alt)); reflexivity.
      * rewrite getitem6_title. cbn [bind truthy]. rewrite Et. reflexivity.
    + rewrite getitem6_title. cbn [bind truthy]. rewrite Et. reflexivity.
Qed.

End Exact.

(** ** Exceptions of [urljoin] *)

Section UrlRaises.

Variable bracketed_netloc_ok : str -> bool.
Variable nfkc : str -> str.

Lemma urlsplit_raises (url dflt : str) (e : exn) :
  Url.urlsplit bracketed_netloc_ok nfkc url dflt = Raise e -> e = ValueError.
Proof.
  unfold Url.urlsplit.
  destruct (Url.split_scheme (Url.sanitize_url url)) as [[sch rest]|];
    [set (u := rest)|set (u := Url.sanitize_url url)];
    (destruct (if str_eqb (firstn 2 u) (lit "//") then Url.splitnetloc2 u
               else ([], u)) as [netloc u'];
     repeat match goal with
            | |- (if ?c then _ else _) = _ -> _ =>
                destruct c; [intros H; now inversion H|]
            end;
     destruct (Url.split_once 35%N u') as [u1 fragment];
     destruct (Url.split_once 63%N u1) as [u2 query];
     destruct (Url.checknetloc nfkc netloc); intros H; now inversion H).
Qed.

Lemma urlparse_raises (url dflt : str) (e : exn) :
  Url.urlparse bracketed_netloc_ok nfkc url dflt = Raise e -> e = ValueError.
Proof.
  unfold Url.urlparse.
  destruct (Url.urlsplit bracketed_netloc_ok nfkc url dflt) as [r|e'] eqn:E;
    cbn [bind].
  - destruct (if str_in (Url.s_scheme r) Url.uses_params
                 && char_in 59%N (Url.s_path r)
              then Url.splitparams (Url.s_path r) else (Url.s_path r, []));
      discriminate.
  - intros H; inversion H; subst. exact (urlsplit_raises _ _ E).
Qed.

Lemma urljoin_raises (base url : str) (e : exn) :
  Url.urljoin bracketed_netloc_ok nfkc base url = Raise e -> e = ValueError.
Proof.
  unfold Url.urljoin.
  destruct (negb (nonempty base)); [discriminate|].
  destruct (negb (nonempty url)); [discriminate|].
  destruct (Url.urlparse bracketed_netloc_ok nfkc base []) as [b|e1] eqn:Eb;
    cbn [bind]; [|intros H; inversion H; subst; exact (urlparse_raises _ _ Eb)].
  destruct (Url.urlparse bracketed_netloc_ok nfkc url (Url.p_scheme b))
    as [u|e2] eqn:Eu;
    cbn [bind]; [|intros H; inversion H; subst; exact (urlparse_raises _ _ Eu)].
  repeat match goal with
         | |- (if ?c then _ else _) = _ -> _ => destruct c
         end; discriminate.
Qed.

End UrlRaises.

Lemma for_each_raises {S A} (body : S -> A -> result S) (l : list A) (s : S)
      (e : exn) :
  for_each body l s = Raise e ->
  exists s' x, In x l /\ body s' x = Raise e.
Proof.
  revert s; induction l as [|x l IH]; intros s; cbn [for_each]; [discriminate|].
  destruct (body s x) as [s1|e1] eqn:E; cbn [bind].
  - intros H. destruct (IH _ H) as (s' & y & Hy & Hb).
    exists s', y. split; [now right|assumption].
  - intros H; inversion H; subst. exists s, x. split; [now left|assumption].
Qed.

Lemma Ok_inj {A} (a b : A) : Ok a = Ok b -> a = b.
Proof. congruence. Qed.

(** ** Field by field *)

Section Fields.

Variable requests_get : str -> http_outcome.
Variable html_parser : str -> result (list Node).
Variable isalpha : char -> bool.
Variable lower : str -> str.
Variable bracketed_netloc_ok : str -> bool.
Variable nfkc : str -> str.

Local Abbreviation urljoin' := (urljoin bracketed_netloc_ok nfkc).
Local Abbreviation parse_movie_card' :=
  (parse_movie_card isalpha lower bracketed_netloc_ok nfkc).
Local Abbreviation card_step' := (card_step isalpha lower bracketed_netloc_ok nfkc).
Local Abbreviation scrape_pages' :=
  (scrape_pages requests_get html_parser isalpha lower bracketed_netloc_ok nfkc).
Local Abbreviation run_pages' :=
  (run_pages requests_get html_parser isalpha lower bracketed_netloc_ok nfkc).
Local Abbreviation page_step' :=
  (page_step requests_get html_parser isalpha lower bracketed_netloc_ok nfkc).

Lemma title_cascade_at (card : Tag) (before : list selector) (sel : selector)
      (after : list selector) (node : Tag) (v : str) :
  (forall s n, In s before -> select_one card s = Some n -> node_title n = Ok []) ->
  select_one card sel = Some node ->
  node_title node = Ok v -> v <> [] ->
  title_cascade card (before ++ sel :: after) = v.
Proof.
  intros Hbefore Hsel Hv Hne.
  rewrite node_title_exact in Hv. inversion Hv as [Hv']. clear Hv. subst v.
  induction before as [|s before IH]; cbn [app title_cascade].
  - rewrite Hsel. apply nonempty_true in Hne. now rewrite Hne.
  - assert (IH' : title_cascade card (before ++ sel :: after)
                  = node_title_value node).
    { apply IH. intros s' n Hs'. apply Hbefore. now right. }
    destruct (select_one card s) as [n|] eqn:En; [|exact IH'].
    specialize (Hbefore s n (or_introl eq_refl) En).
    rewrite node_title_exact in Hbefore. inversion Hbefore as [Hn].
    rewrite Hn. exact IH'.
Qed.

Lemma title_cascade_none (card : Tag) (sels : list selector) :
  (forall s n, In s sels -> select_one card s = Some n -> node_title n = Ok []) ->
  title_cascade card sels = [].
Proof.
  induction sels as [|s sels IH]; intros H; cbn [title_cascade]; [reflexivity|].
  assert (IH' : title_cascade card sels = []).
  { apply IH. intros s' n Hs'. apply H. now right. }
  destruct (select_one card s) as [n|] eqn:En; [|exact IH'].
  specialize (H s n (or_introl eq_refl) En).
  rewrite node_title_exact in H. inversion H as [Hn]. rewrite Hn. exact IH'.
Qed.

(** X1.  The title [parse_movie_card] returns is the one of the first
    selector of the cascade whose first node yields a non-empty title:
    selectors that match nothing, and selectors whose node yields an empty
    title, are passed over.  When no selector yields a non-empty title the
    title is the empty string. *)
Theorem title_is_first_nonempty_candidate (card : Tag) (page_url : str) (d : dict) :
  parse_movie_card' card page_url = Ok d ->
  (forall before sel after node v,
      title_selectors = before ++ sel :: after ->
      (forall s n, In s before -> select_one card s = Some n ->
                   node_title n = Ok []) ->
      select_one card sel = Some node ->
      node_title node = Ok v -> v <> [] ->
      getitem d k_title = Ok (VStr v))
  /\ ((forall s n, In s title_selectors -> select_one card s = Some n ->
                   node_title n = Ok []) ->
      getitem d k_title = Ok (VStr [])).
Proof.
  rewrite parse_movie_card_exact. intros H. inv_bind H. inv_bind H.
  apply Ok_inj in H; subst d. rewrite getitem5_title. split.
  - intros before sel after node v Hsplit Hbefore Hsel Hv Hne.
    rewrite Hsplit. f_equal. f_equal.
    exact (title_cascade_at card before sel after Hbefore Hsel Hv Hne).
  - intros Hnone. now rewrite (title_cascade_none card title_selectors Hnone).
Qed.

(** X2.  [detail_url] comes from the first [a] element with an [href]
    attribute, and from nothing else: it is [urljoin(BASE, href)] for that
    element, and the empty string when the container has no such
    element; the search for a plain [a] never provides a link. *)
Theorem detail_url_comes_from_first_a_href (card : Tag) (page_url : str) (d : dict) :
  parse_movie_card' card page_url = Ok d ->
  exists du,
    getitem d k_detail_url = Ok (VStr du)
    /\ match select_one card [tag_attr "a" "href"] with
       | Some a => exists href,
                     get a (lit "href") = Some href
                     /\ urljoin' BASE href = Ok du
       | None => du = []
       end.
Proof.
  rewrite parse_movie_card_exact. intros H. inv_bind H. inv_bind H.
  apply Ok_inj in H; subst d. rename a into du, Ha into Hdu.
  exists du. split; [reflexivity|].
  unfold detail_value, detail_anchor in Hdu.
  destruct (select_one card [tag_attr "a" "href"]) as [a|] eqn:Esel.
  - apply select_one_Some in Esel as [_ Hm].
    rewrite matches_a_href in Hm. apply andb_true_iff in Hm as [_ Hh].
    unfold has_attr in Hh.
    destruct (get a (lit "href")) as [href|]; [eauto|discriminate].
  - destruct (find card (lit "a")) as [a|] eqn:Efind;
      [|now inversion Hdu].
    destruct (get a (lit "href")) as [href|] eqn:Eh; [|now inversion Hdu].
    exfalso. apply find_Some in Efind as [Hd Hn].
    apply select_one_None in Esel.
    assert (Hin : In a (select card [tag_attr "a" "href"])).
    { apply select_In. split; [assumption|].
      rewrite matches_a_href, Hn, str_eqb_refl. unfold has_attr. now rewrite Eh. }
    rewrite Esel in Hin. destruct Hin.
Qed.

(** X3.  [image_url] comes from the first [img] element only, and among its
    attributes [src], [data-src], [data-original] from the first one that
    is present and not empty; it is the empty string without an [img] and
    when the three are absent or empty. *)
Theorem image_url_comes_from_first_img (card : Tag) (page_url : str) (d : dict) :
  parse_movie_card' card page_url = Ok d ->
  let blank (o : option str) := o = None \/ o = Some [] in
  exists im,
    getitem d k_image_url = Ok (VStr im)
    /\ (find card (lit "img") = None -> im = [])
    /\ forall img, find card (lit "img") = Some img ->
         (forall c s, get img (lit "src") = Some (c :: s) ->
                      urljoin' BASE (c :: s) = Ok im)
         /\ (forall c s, blank (get img (lit "src")) ->
                         get img (lit "data-src") = Some (c :: s) ->
                         urljoin' BASE (c :: s) = Ok im)
         /\ (forall c s, blank (get img (lit "src")) ->
                         blank (get img (lit "data-src")) ->
                         get img (lit "data-original") = Some (c :: s) ->
                         urljoin' BASE (c :: s) = Ok im)
         /\ (blank (get img (lit "src")) ->
             blank (get img (lit "data-src")) ->
             blank (get img (lit "data-original")) -> im = []).
Proof.
  rewrite parse_movie_card_exact. intros H blank. inv_bind H. inv_bind H.
  apply Ok_inj in H; subst d. rename a0 into im, Ha0 into Him.
  exists im. split; [reflexivity|].
  unfold image_value in Him. split.
  - intros Hnone. rewrite Hnone in Him. now inversion Him.
  - intros img Himg. rewrite Himg in Him. unfold image_src, py_or in Him.
    repeat split.
    + intros c s Hs. rewrite Hs in Him. exact Him.
    + intros c s [Hs|Hs] Hd; rewrite Hs, Hd in Him; exact Him.
    + intros c s [Hs|Hs] [Hd|Hd] Ho; rewrite Hs, Hd, Ho in Him; exact Him.
    + intros [Hs|Hs] [Hd|Hd] [Ho|Ho]; rewrite Hs, Hd, Ho in Him;
        now inversion Him.
Qed.

Lemma parse_movie_card_raise_inv (card : Tag) (page_url : str) (e : exn) :
  parse_movie_card' card page_url = Raise e ->
  e = ValueError /\ exists raw, urljoin' BASE raw = Raise ValueError.
Proof.
  rewrite parse_movie_card_exact. intros H.
  assert (Hjoin : forall raw, urljoin' BASE raw = Raise e ->
                  e = ValueError /\ exists raw, urljoin' BASE raw = Raise ValueError).
  { intros raw Hraw. pose proof (urljoin_raises _ _ _ _ Hraw) as ->. eauto. }
  destruct (detail_value bracketed_netloc_ok nfkc card) as [du|e1] eqn:Ed;
    cbn [bind] in H.
  - destruct (image_value bracketed_netloc_ok nfkc card) as [im|e2] eqn:Ei;
      cbn [bind] in H; [discriminate|].
    inversion H; subst e2. unfold image_value in Ei.
    destruct (find card (lit "img")) as [img|]; [|discriminate].
    destruct (image_src img) as [[|c src]|]; try discriminate. eauto.
  - inversion H; subst e1. unfold detail_value in Ed.
    destruct (detail_anchor card) as [a|]; [|discriminate].
    destruct (get a (lit "href")) as [href|]; [|discriminate]. eauto.
Qed.

(** X4.  [parse_movie_card] never raises [KeyError]: the only exception it
    can raise is the [ValueError] of a call [urljoin(BASE, raw)]. *)
Theorem parse_movie_card_raises_only_from_urljoin
        (card : Tag) (page_url : str) (e : exn) :
  parse_movie_card' card page_url = Raise e ->
  e = ValueError /\ exists raw, urljoin' BASE raw = Raise ValueError.
Proof. apply parse_movie_card_raise_inv. Qed.

End Fields.

(** ** Containers *)

Lemma select_cards_at (soup : Tag) (before : list selector) (sel : selector)
      (after : list selector) :
  (forall s, In s before -> select soup s = []) ->
  select soup sel <> [] ->
  select_cards soup (before ++ sel :: after) = select soup sel.
Proof.
  intros Hbefore Hsel. induction before as [|s before IH]; cbn [app select_cards].
  - destruct (select soup sel); congruence.
  - rewrite (Hbefore s) by now left. apply IH.
    intros s' Hs'. apply Hbefore. now right.
Qed.

Lemma select_cards_In (soup : Tag) (sels : list selector) (c : Tag) :
  In c (select_cards soup sels) -> In c (descendants soup).
Proof.
  induction sels as [|sel sels IH]; cbn [select_cards]; [intros []|].
  destruct (select soup sel) as [|x l] eqn:E; [exact IH|].
  rewrite <- E. intros H. now apply select_In in H.
Qed.

Lemma firstn_In {A} (n : nat) (l : list A) (x : A) :
  In x (firstn n l) -> In x l.
Proof.
  intros H. rewrite <- (firstn_skipn n l). apply in_or_app. now left.
Qed.

(** X5.  The cascade over the card selectors stops at the first selector
    that matches: the containers of a page are exactly the nodes of that
    selector, never a union with those of later selectors. *)
Theorem first_matching_card_selector_wins
        (soup : Tag) (before : list selector) (sel : selector)
        (after : list selector) :
  card_selectors = before ++ sel :: after ->
  (forall s, In s before -> select soup s = []) ->
  select soup sel <> [] ->
  find_cards soup = select soup sel.
Proof.
  intros Hsplit Hbefore Hsel. unfold find_cards.
  rewrite Hsplit, (select_cards_at soup before sel after Hbefore Hsel).
  destruct (select soup sel); congruence.
Qed.

(** X6.  Every container found on a page is an element of that page. *)
Theorem cards_are_elements_of_the_page (soup c : Tag) :
  In c (find_cards soup) -> In c (descendants soup).
Proof.
  unfold find_cards.
  destruct (select_cards soup card_selectors) as [|x l] eqn:E.
  - rewrite heuristic_cards_filter, filter_In. intros [H _].
    now apply find_all_In in H.
  - rewrite <- E. apply select_cards_In.
Qed.

(** X7.  The types heuristic yields at most six entries, and each of them
    is the text of a [span] or [p] element of the container that the
    acceptance test admits. *)
Theorem heuristic_scan_is_bounded (isalpha : char -> bool) (card : Tag) :
  List.length (heuristic_scan isalpha card) <= 6
  /\ forall t, In t (heuristic_scan isalpha card) ->
       heuristic_accept isalpha t = true
       /\ exists s, In s (descendants card)
                    /\ (name s = lit "span" \/ name s = lit "p")
                    /\ get_text s = t.
Proof.
  rewrite heuristic_scan_filter. split.
  - eapply Nat.le_trans; [apply filter_length_le|].
    rewrite length_map. apply firstn_le_length.
  - intros t Ht. apply filter_In in Ht as [Hin Hacc]. split; [assumption|].
    apply in_map_iff in Hin as (s & <- & Hs).
    unfold find_all_limit in Hs. apply firstn_In, find_all_In in Hs as [Hd Hn].
    exists s. split; [assumption|]. split; [|reflexivity].
    destruct Hn as [<-|[<-|[]]]; auto.
Qed.

Section Containers.

Variable isalpha : char -> bool.
Variable lower : str -> str.
Variable bracketed_netloc_ok : str -> bool.
Variable nfkc : str -> str.

Local Abbreviation parse_movie_card' :=
  (parse_movie_card isalpha lower bracketed_netloc_ok nfkc).
Local Abbreviation card_step' := (card_step isalpha lower bracketed_netloc_ok nfkc).

(** X8.  A container whose cascade title is empty is kept when its first
    [img] has an [alt] text that is not blank, with that text, stripped, as
    its title; it is dropped, without any error, when it has no [img], when
    the [img] has no [alt], and when the [alt] is blank. *)
Theorem empty_title_falls_back_to_img_alt
        (i : Z) (page_url : str) (rows : list dict) (c : Tag) (d : dict) :
  parse_movie_card' c page_url = Ok d ->
  getitem d k_title = Ok (VStr []) ->
  (forall img alt,
      find c (lit "img") = Some img ->
      get img (lit "alt") = Some alt ->
      strip alt <> [] ->
      card_step' i page_url rows c
      = Ok (rows ++ [setitem (setitem d k_page (VInt i)) k_title
                             (VStr (strip alt))]))
  /\ (find c (lit "img") = None
      \/ (exists img, find c (lit "img") = Some img
                      /\ (get img (lit "alt") = None
                          \/ exists alt, get img (lit "alt") = Some alt
                                         /\ strip alt = [])) ->
      card_step' i page_url rows c = Ok rows).
Proof.
  intros Hparse Htitle.
  destruct (parse_movie_card_shape _ _ _ _ _ _ Hparse)
    as (t & im & du & -> & _ & _).
  rewrite getitem5_title in Htitle. apply Ok_inj in Htitle.
  injection Htitle as ->.
  erewrite card_step_exact by exact Hparse. cbn [nonempty].
  unfold alt_title. split.
  - intros img alt Himg Halt Hne. rewrite Himg, Halt.
    apply nonempty_true in Hne. rewrite Hne.
    now rewrite setitem5_page, setitem6_title.
  - intros [Hnone|(img & Himg & [Hnone|(alt & Halt & Hblank)])].
    + now rewrite Hnone.
    + now rewrite Himg, Hnone.
    + now rewrite Himg, Halt, Hblank.
Qed.

(** X9.  A container whose cascade title is not empty adds exactly one
    row: the dictionary of [parse_movie_card] with the page index under
    ['page']; the [alt] text is not consulted. *)
Theorem titled_container_adds_its_record
        (i : Z) (page_url : str) (rows : list dict) (c : Tag) (d : dict) (t : str) :
  parse_movie_card' c page_url = Ok d ->
  getitem d k_title = Ok (VStr t) -> t <> [] ->
  card_step' i page_url rows c = Ok (rows ++ [setitem d k_page (VInt i)]).
Proof.
  intros Hparse Htitle Hne.
  destruct (parse_movie_card_shape _ _ _ _ _ _ Hparse)
    as (t' & im & du & -> & _ & _).
  rewrite getitem5_title in Htitle. apply Ok_inj in Htitle.
  injection Htitle as ->.
  erewrite card_step_exact by exact Hparse.
  apply nonempty_true in Hne. cbn zeta. rewrite Hne, Hne.
  now rewrite setitem5_page.
Qed.

(** X10.  The loop over the containers only appends, and appends at most
    one row per container. *)
Theorem at_most_one_row_per_container
        (i : Z) (page_url : str) (cards : list Tag) (rows rows' : list dict) :
  for_each (card_step' i page_url) cards rows = Ok rows' ->
  exists new, rows' = rows ++ new /\ List.length new <= List.length cards.
Proof.
  revert rows; induction cards as [|c cards IH]; intros rows H;
    cbn [for_each] in H.
  - apply Ok_inj in H. subst. exists []. now rewrite app_nil_r.
  - inv_bind H. destruct (IH _ H) as (new & -> & Hlen).
    apply card_step_shape in Ha as [->|(t & im & du & _ & _ & _ & ->)].
    + exists new. split; [reflexivity|]. cbn [List.length]. lia.
    + eexists (_ :: new). rewrite <- app_assoc. split; [reflexivity|].
      cbn [List.length]. lia.
Qed.

End Containers.

(** ** Runs *)

Lemma StronglySorted_repeat_app (i : Z) (n : nat) (ps : list Z) :
  StronglySorted Z.le ps -> Forall (Z.le i) ps ->
  StronglySorted Z.le (repeat i n ++ ps).
Proof.
  intros Hs Hle. induction n as [|n IH]; cbn [repeat app]; [assumption|].
  constructor; [assumption|].
  apply Forall_app. split; [|assumption].
  apply Forall_forall. intros x Hx. apply repeat_spec in Hx. subst. lia.
Qed.

Lemma range_sorted (a b : Z) : StronglySorted Z.le (range a b).
Proof.
  remember (Z.to_nat (b - a)) as n eqn:Hn. revert a Hn.
  induction n as [|n IH]; intros a Hn.
  - rewrite range_empty by lia. constructor.
  - rewrite range_cons by lia. constructor; [apply IH; lia|].
    apply Forall_forall. intros x Hx. apply range_In in Hx. lia.
Qed.

Section Runs.

Variable requests_get : str -> http_outcome.
Variable html_parser : str -> result (list Node).
Variable isalpha : char -> bool.
Variable lower : str -> str.
Variable bracketed_netloc_ok : str -> bool.
Variable nfkc : str -> str.

Local Abbreviation fetch' := (fetch requests_get).
Local Abbreviation urljoin' := (urljoin bracketed_netloc_ok nfkc).
Local Abbreviation parse_movie_card' :=
  (parse_movie_card isalpha lower bracketed_netloc_ok nfkc).
Local Abbreviation card_step' := (card_step isalpha lower bracketed_netloc_ok nfkc).
Local Abbreviation page_step' :=
  (page_step requests_get html_parser isalpha lower bracketed_netloc_ok nfkc).
Local Abbreviation run_pages' :=
  (run_pages requests_get html_parser isalpha lower bracketed_netloc_ok nfkc).
Local Abbreviation scrape_pages' :=
  (scrape_pages requests_get html_parser isalpha lower bracketed_netloc_ok nfkc).
Local Abbreviation page_records' :=
  (page_records html_parser isalpha lower bracketed_netloc_ok nfkc).
Local Abbreviation contribution' :=
  (contribution requests_get html_parser isalpha lower bracketed_netloc_ok nfkc).
Local Abbreviation accumulate' :=
  (accumulate requests_get html_parser isalpha lower bracketed_netloc_ok nfkc).
Local Abbreviation page_events' := (page_events requests_get).
Local Abbreviation main' :=
  (main requests_get html_parser isalpha lower bracketed_netloc_ok nfkc).

Lemma scrape_pages_accumulate (start end_ : Z) :
  scrape_pages' start end_ = accumulate' (range start (end_ + 1)).
Proof.
  unfold scrape_pages, run_pages.
  rewrite (pages_loop_rows requests_get html_parser isalpha lower
             bracketed_netloc_ok nfkc).
  cbn [rows app]. destruct (accumulate' (range start (end_ + 1))); reflexivity.
Qed.

Lemma contribution_pages (i : Z) (new : list dict) :
  contribution' i = Ok new ->
  Forall (fun r => getitem r k_page = Ok (VInt i)) new.
Proof.
  unfold contribution.
  destruct (fetch' (page_url_of i)) as [[|c html]|];
    try (intros H; apply Ok_inj in H; subst; constructor).
  unfold page_records. intros H. inv_bind H. revert H.
  apply (for_each_invariant
           (fun rows => Forall (fun r => getitem r k_page = Ok (VInt i)) rows));
    [|constructor].
  intros rows0 c0 rows1 Hrows Hstep.
  apply card_step_shape in Hstep as [->|(t & im & du & _ & _ & _ & ->)];
    [assumption|].
  apply Forall_app. split; [assumption|].
  constructor; [apply getitem6_page|constructor].
Qed.

Lemma accumulate_pages (l : list Z) (rs : list dict) :
  StronglySorted Z.le l ->
  accumulate' l = Ok rs ->
  exists pages,
    map (fun r => getitem r k_page) rs = map (fun i => Ok (VInt i)) pages
    /\ StronglySorted Z.le pages
    /\ incl pages l.
Proof.
  revert rs; induction l as [|i l IH]; intros rs Hs H; cbn [accumulate] in H.
  - apply Ok_inj in H. subst. exists []. repeat split; [constructor|easy].
  - inv_bind H. inv_bind H. apply Ok_inj in H. subst rs.
    rename a into here, a0 into later.
    apply StronglySorted_inv in Hs as [Hs Hle].
    destruct (IH later Hs Ha0) as (ps & Hmap & Hsorted & Hincl).
    apply contribution_pages in Ha.
    exists (repeat i (List.length here) ++ ps). split; [|split].
    + rewrite !map_app, Hmap. f_equal.
      clear -Ha. induction Ha as [|r here Hr _ IHh]; [reflexivity|].
      cbn [map List.length repeat]. now rewrite Hr, IHh.
    + apply StronglySorted_repeat_app; [assumption|].
      apply Forall_forall. intros x Hx.
      rewrite Forall_forall in Hle. apply Hle, Hincl, Hx.
    + intros x Hx. apply in_app_or in Hx as [Hx|Hx].
      * apply repeat_spec in Hx. subst. now left.
      * right. now apply Hincl.
Qed.

(** X11.  The rows of a run carry the index of their page under ['page'];
    these indices lie in the range of the run and never decrease along the
    list. *)
Theorem rows_are_in_page_order (start end_ : Z) (rs : list dict) :
  scrape_pages' start end_ = Ok rs ->
  exists pages,
    map (fun r => getitem r k_page) rs = map (fun i => Ok (VInt i)) pages
    /\ StronglySorted Z.le pages
    /\ Forall (fun i => (start <= i <= end_)%Z) pages.
Proof.
  rewrite scrape_pages_accumulate. intros H.
  destruct (accumulate_pages (range_sorted start (end_ + 1)) H)
    as (ps & Hmap & Hsorted & Hincl).
  exists ps. split; [assumption|]. split; [assumption|].
  apply Forall_forall. intros i Hi. apply Hincl, range_In in Hi. lia.
Qed.

(** X12.  With an empty range ([end_ < start]) the run fetches nothing,
    waits for nothing and returns the empty list. *)
Theorem empty_range_does_nothing (start end_ : Z) :
  (end_ < start)%Z ->
  run_pages requests_get html_parser isalpha lower bracketed_netloc_ok nfkc
            start end_ = Ok (mkState [] [])
  /\ scrape_pages requests_get html_parser isalpha lower bracketed_netloc_ok
                  nfkc start end_ = Ok [].
Proof.
  intros H. unfold scrape_pages, run_pages.
  rewrite range_empty by lia. split; reflexivity.
Qed.

Lemma pages_loop_trace (pages : list Z) (st st' : state) :
  for_each page_step' pages st = Ok st' ->
  trace st' = trace st ++ flat_map page_events' pages.
Proof.
  revert st; induction pages as [|i pages IH]; intros st H; cbn [for_each] in H.
  - apply Ok_inj in H. subst. cbn [flat_map]. now rewrite app_nil_r.
  - inv_bind H. rewrite (IH _ H). cbn [flat_map]. rewrite app_assoc. f_equal.
    clear IH H. unfold page_events.
    destruct (fetch' (page_url_of i)) as [[|c html]|] eqn:Ef.
    + rewrite page_step_failed_fetch in Ha by auto.
      apply Ok_inj in Ha. now subst a.
    + now destruct (@page_step_fetched requests_get html_parser isalpha lower
                      bracketed_netloc_ok nfkc st a i c html Ef Ha) as [-> _].
    + rewrite page_step_failed_fetch in Ha by auto.
      apply Ok_inj in Ha. now subst a.
Qed.

(** X13.  A run that returns has requested every page of its range exactly
    once, in ascending order, with no second attempt for a page that
    failed; [time.sleep] was called once after each page that gave a
    non-empty body, and not otherwise. *)
Theorem each_page_is_fetched_once (start end_ : Z) (st : state) :
  run_pages' start end_ = Ok st ->
  trace st = flat_map page_events' (range start (end_ + 1)).
Proof.
  unfold run_pages. intros H. now rewrite (pages_loop_trace _ _ H).
Qed.

Lemma card_step_raise_inv (i : Z) (page_url : str) (rows : list dict) (c : Tag)
      (e : exn) :
  card_step' i page_url rows c = Raise e ->
  parse_movie_card' c page_url = Raise e.
Proof.
  intros H. destruct (parse_movie_card' c page_url) as [d|e'] eqn:Ep.
  - destruct (parse_movie_card_shape _ _ _ _ _ _ Ep)
      as (t & im & du & -> & _ & _).
    erewrite card_step_exact in H by exact Ep. discriminate.
  - unfold card_step in H. rewrite Ep in H. cbn [bind] in H. congruence.
Qed.

(** X14.  A run ends with an exception only on a page of its range whose
    fetch gave a non-empty body, and for one of two reasons: the parser
    raised that exception on the body, or [parse_movie_card] raised it on
    one of the containers of the page, and then it is the [ValueError] of
    [urljoin].  No failed fetch, no missing key, no missing attribute and
    no page without containers raises. *)
Theorem run_raises_only_from_parser_or_urljoin (start end_ : Z) (e : exn) :
  scrape_pages requests_get html_parser isalpha lower bracketed_netloc_ok nfkc
               start end_ = Raise e ->
  exists i html,
    (start <= i <= end_)%Z
    /\ fetch' (page_url_of i) = Some html /\ html <> []
    /\ (html_parser html = Raise e
        \/ exists top c,
             html_parser html = Ok top
             /\ In c (find_cards (document top))
             /\ parse_movie_card' c (page_url_of i) = Raise e
             /\ e = ValueError).
Proof.
  unfold scrape_pages, run_pages. intros H.
  destruct (for_each page_step' (range start (end_ + 1)) (mkState [] []))
    as [st|e'] eqn:Erun; cbn [bind] in H; [discriminate|].
  injection H as ->.
  apply for_each_raises in Erun as (st & i & Hi & Hstep).
  apply range_In in Hi.
  unfold page_step in Hstep.
  destruct (fetch' (page_url_of i)) as [[|c html]|] eqn:Ef; try discriminate.
  exists i, (c :: html).
  split; [lia|]. split; [exact Ef|]. split; [discriminate|].
  cbn [rows trace] in Hstep.
  destruct (html_parser (c :: html)) as [top|e'] eqn:Etop; cbn [bind] in Hstep.
  - right. exists top.
    match type of Hstep with
    | bind ?m _ = _ => destruct m as [rows'|e'] eqn:Ecards
    end; cbn [bind] in Hstep; [discriminate|].
    injection Hstep as ->.
    apply for_each_raises in Ecards as (rows0 & card & Hcard_in & Hcard).
    apply card_step_raise_inv in Hcard.
    exists card. split; [reflexivity|]. split; [exact Hcard_in|].
    split; [exact Hcard|].
    exact (proj1 (parse_movie_card_raise_inv _ _ _ _ _ _ Hcard)).
  - left. congruence.
Qed.

Lemma accumulate_all_skipped (l : list Z) :
  (forall i, In i l ->
             fetch' (page_url_of i) = None \/ fetch' (page_url_of i) = Some []) ->
  accumulate' l = Ok [].
Proof.
  induction l as [|i l IH]; intros H; cbn [accumulate]; [reflexivity|].
  rewrite IH by (intros j Hj; apply H; now right).
  unfold contribution. destruct (H i (or_introl eq_refl)) as [-> | ->];
    reflexivity.
Qed.

(** X15.  When the fetch of every page of the range fails (or returns an
    empty body) the run does not raise: it returns the empty list. *)
Theorem run_without_any_page_returns_nothing (start end_ : Z) :
  (forall i, (start <= i <= end_)%Z ->
             fetch' (page_url_of i) = None \/ fetch' (page_url_of i) = Some []) ->
  scrape_pages' start end_ = Ok [].
Proof.
  intros H. rewrite scrape_pages_accumulate. apply accumulate_all_skipped.
  intros i Hi. apply H. apply range_In in Hi. lia.
Qed.

(** X16.  When none of the pages 1 to 10 can be fetched, the program ends
    normally and writes no file. *)
Theorem main_writes_nothing_without_pages :
  (forall i, (1 <= i <= 10)%Z -> fetch' (page_url_of i) = None) ->
  main' = Ok None.
Proof.
  intros H. unfold main. rewrite scrape_pages_accumulate.
  rewrite accumulate_all_skipped; [reflexivity|].
  intros i Hi. left. apply H. apply range_In in Hi. lia.
Qed.

End Runs.

(** ** The URLs of the pages *)

Lemma lit_inj (a b : string) : lit a = lit b -> a = b.
Proof.
  unfold lit. intros H.
  rewrite <- (string_of_list_ascii_of_string a),
          <- (string_of_list_ascii_of_string b).
  f_equal. revert H.
  generalize (list_ascii_of_string a) (list_ascii_of_string b).
  induction l as [|x l IH]; intros [|y l']; cbn [map]; try discriminate;
    [reflexivity|].
  intros H. injection H as Hx Hl. f_equal; [|now apply IH].
  rewrite <- (ascii_N_embedding x), <- (ascii_N_embedding y). now rewrite Hx.
Qed.

Lemma to_int_proper (z : Z) :
  Z.to_int z <> Decimal.Pos Decimal.Nil /\ Z.to_int z <> Decimal.Neg Decimal.Nil.
Proof.
  destruct z as [|p|p]; cbn [Z.to_int]; split; try discriminate;
    intros H; injection H as H;
    exact (DecimalPos.Unsigned.to_uint_nonnil _ H).
Qed.

Lemma str_of_int_inj (i j : Z) : str_of_int i = str_of_int j -> i = j.
Proof.
  unfold str_of_int. intros H. apply lit_inj in H.
  apply DecimalZ.to_int_inj.
  destruct (to_int_proper i) as [Hi1 Hi2], (to_int_proper j) as [Hj1 Hj2].
  pose proof (NilZero.isi _ Hi1 Hi2) as Ei.
  pose proof (NilZero.isi _ Hj1 Hj2) as Ej.
  rewrite H in Ei. congruence.
Qed.

(** X17.  Different page indices give different URLs: the URL of page [i]
    is [BASE/page/i] with [i] in decimal, so no two pages of a run share a
    request. *)
Theorem page_urls_are_distinct (i j : Z) :
  page_url_of i = page_url_of j -> i = j.
Proof.
  unfold page_url_of. intros H.
  apply app_inv_head, app_inv_head in H. now apply str_of_int_inj.
Qed.

(** ** What [save_csv] writes *)

Lemma csv_row_lookup (r : dict) (k : str) :
  In k fieldnames ->
  getitem (csv_row r) k = Ok (get_default r k (VStr [])).
Proof.
  unfold fieldnames. intros [<-|[<-|[<-|[<-|[<-|[<-|[]]]]]]]; reflexivity.
Qed.

(** X18.  [save_csv] writes nothing for an empty list of rows.  Otherwise
    it writes the header title, image_url, rating, types, page, detail_url
    and one line per row, in order; each line has exactly the keys of the
    header, in that order, with the value of the row, and the empty string
    for a key the row does not have. *)
Theorem save_csv_writes_the_schema (rows : list dict) :
  (save_csv rows = None <-> rows = [])
  /\ forall header out,
       save_csv rows = Some (header, out) ->
       header = fieldnames
       /\ List.length out = List.length rows
       /\ forall n r, nth_error rows n = Some r ->
            exists line,
              nth_error out n = Some line
              /\ keys line = fieldnames
              /\ forall k, In k fieldnames ->
                   getitem line k = Ok (get_default r k (VStr [])).
Proof.
  split.
  - destruct rows; cbn [save_csv]; split; intros; congruence.
  - intros header out H.
    assert (Hout : header = fieldnames /\ out = map csv_row rows).
    { destruct rows; cbn [save_csv] in H; [discriminate|].
      injection H as <- <-. auto. }
    destruct Hout as [-> ->]. split; [reflexivity|].
    split; [apply length_map|].
    intros n r Hn. exists (csv_row r).
    split; [now apply map_nth_error|]. split; [reflexivity|].
    intros k Hk. now apply csv_row_lookup.
Qed.

(** ** Stripped titles *)

Lemma lstrip_no_leading (s : str) : no_leading_space (lstrip_by isspace s).
Proof.
  induction s as [|c r IH]; cbn [lstrip_by]; [exact I|].
  destruct (isspace c) eqn:E; [exact IH|exact E].
Qed.

Lemma lstrip_fix (s : str) : no_leading_space s -> lstrip_by isspace s = s.
Proof. destruct s as [|c r]; cbn; [reflexivity|]. now intros ->. Qed.

Lemma lstrip_snoc (l : str) (c : char) :
  isspace c = false ->
  lstrip_by isspace (l ++ [c]) = lstrip_by isspace l ++ [c].
Proof.
  intros Hc. induction l as [|x l IH]; cbn [app lstrip_by].
  - now rewrite Hc.
  - destruct (isspace x); [exact IH|reflexivity].
Qed.

Lemma rstrip_cons (c : char) (r : str) :
  isspace c = false ->
  rstrip_by isspace (c :: r) = c :: rstrip_by isspace r.
Proof.
  intros Hc. unfold rstrip_by. cbn [rev].
  now rewrite lstrip_snoc, rev_unit.
Qed.

Lemma strip_no_leading (s : str) : no_leading_space (strip s).
Proof.
  unfold strip, strip_by.
  pose proof (lstrip_no_leading s) as H.
  destruct (lstrip_by isspace s) as [|c r]; [exact I|].
  cbn in H. rewrite rstrip_cons by exact H. exact H.
Qed.

Lemma strip_no_trailing (s : str) : no_trailing_space (strip s).
Proof.
  unfold no_trailing_space, strip, strip_by, rstrip_by.
  rewrite rev_involutive. apply lstrip_no_leading.
Qed.

Lemma strip_fix (s : str) :
  no_leading_space s -> no_trailing_space s -> trimmed s.
Proof.
  intros Hl Ht. unfold trimmed, strip, strip_by, rstrip_by.
  rewrite (lstrip_fix s Hl), (lstrip_fix (rev s) Ht). apply rev_involutive.
Qed.

Lemma concat_no_leading (l : list str) :
  Forall (fun x => x <> [] /\ no_leading_space x) l ->
  no_leading_space (List.concat l).
Proof.
  intros H. destruct H as [|x l [Hne Hx] _]; cbn [List.concat]; [exact I|].
  destruct x as [|c x]; [congruence|exact Hx].
Qed.

Lemma concat_no_trailing (l : list str) :
  Forall (fun x => x <> [] /\ no_trailing_space x) l ->
  no_trailing_space (List.concat l).
Proof.
  unfold no_trailing_space.
  induction 1 as [|x l [Hne Hx] _ IH]; cbn [List.concat]; [exact I|].
  rewrite rev_app_distr.
  destruct (rev (List.concat l)) as [|c r]; [exact Hx|exact IH].
Qed.

Lemma get_text_edges (t : Tag) :
  no_leading_space (get_text t) /\ no_trailing_space (get_text t).
Proof.
  unfold get_text.
  set (pieces := filter nonempty (map strip (flat_map node_strings (contents t)))).
  assert (H : forall x, In x pieces ->
                        x <> [] /\ no_leading_space x /\ no_trailing_space x).
  { intros x Hx. apply filter_In in Hx as [Hin Hne].
    apply in_map_iff in Hin as (y & <- & _).
    split; [now apply nonempty_true|].
    split; [apply strip_no_leading|apply strip_no_trailing]. }
  split; [apply concat_no_leading|apply concat_no_trailing];
    apply Forall_forall; intros x Hx; destruct (H x Hx) as (? & ? & ?); auto.
Qed.

Lemma node_title_value_edges (node : Tag) :
  no_leading_space (node_title_value node)
  /\ no_trailing_space (node_title_value node).
Proof.
  unfold node_title_value.
  destruct (get node k_title) as [v|]; [|apply get_text_edges].
  destruct (nonempty (strip v)); [|apply get_text_edges].
  split; [apply strip_no_leading|apply strip_no_trailing].
Qed.

Lemma title_cascade_edges (card : Tag) (sels : list selector) :
  no_leading_space (title_cascade card sels)
  /\ no_trailing_space (title_cascade card sels).
Proof.
  induction sels as [|sel sels IH]; cbn [title_cascade]; [now split|].
  destruct (select_one card sel) as [node|]; [|exact IH].
  destruct (nonempty (node_title_value node)); [|exact IH].
  apply node_title_value_edges.
Qed.

Lemma final_title_edges (c : Tag) :
  no_leading_space (final_title c) /\ no_trailing_space (final_title c).
Proof.
  unfold final_title.
  destruct (nonempty (title_cascade c title_selectors));
    [apply title_cascade_edges|].
  unfold alt_title.
  destruct (find c (lit "img")) as [img|]; [|now split].
  destruct (get img (lit "alt")) as [alt|]; [|now split].
  split; [apply strip_no_leading|apply strip_no_trailing].
Qed.

Section Titles.

Variable requests_get : str -> http_outcome.
Variable html_parser : str -> result (list Node).
Variable isalpha : char -> bool.
Variable lower : str -> str.
Variable bracketed_netloc_ok : str -> bool.
Variable nfkc : str -> str.

Local Abbreviation parse_movie_card' :=
  (parse_movie_card isalpha lower bracketed_netloc_ok nfkc).
Local Abbreviation card_step' := (card_step isalpha lower bracketed_netloc_ok nfkc).
Local Abbreviation page_step' :=
  (page_step requests_get html_parser isalpha lower bracketed_netloc_ok nfkc).
Local Abbreviation scrape_pages' :=
  (scrape_pages requests_get html_parser isalpha lower bracketed_netloc_ok nfkc).

(** What holds of the rows before a container, and of the row the
    container adds, holds of every row of a run. *)
Lemma scrape_rows_invariant (P : dict -> Prop) :
  (forall i page_url rows c rows',
      card_step' i page_url rows c = Ok rows' ->
      Forall P rows -> Forall P rows') ->
  forall start end_ rs,
    scrape_pages' start end_ = Ok rs -> Forall P rs.
Proof.
  intros Hcard start end_ rs. unfold scrape_pages, run_pages. intros H.
  inv_bind H. apply Ok_inj in H. subst rs. revert Ha.
  apply (for_each_invariant (fun st => Forall P (rows st))); [|constructor].
  intros st i st' Hst Hstep. unfold page_step in Hstep.
  destruct (fetch requests_get (page_url_of i)) as [[|c html]|];
    try (apply Ok_inj in Hstep; subst st'; exact Hst).
  cbn [rows trace] in Hstep. inv_bind Hstep. inv_bind Hstep.
  apply Ok_inj in Hstep. subst st'. cbn [rows]. revert Ha0.
  apply (for_each_invariant (fun rows => Forall P rows)); [|exact Hst].
  intros rows0 c0 rows1 Hrows Hc. exact (Hcard _ _ _ _ _ Hc Hrows).
Qed.

Lemma card_step_title (i : Z) (page_url : str) (rows rows' : list dict) (c : Tag) :
  card_step' i page_url rows c = Ok rows' ->
  rows' = rows
  \/ exists d, rows' = rows ++ [d]
               /\ getitem d k_title = Ok (VStr (final_title c))
               /\ final_title c <> [].
Proof.
  intros H.
  destruct (parse_movie_card' c page_url) as [d|e] eqn:Ep.
  - pose proof Ep as Ep'. rewrite parse_movie_card_exact in Ep'.
    inv_bind Ep'. inv_bind Ep'. apply Ok_inj in Ep'. subst d.
    erewrite card_step_exact in H by exact Ep.
    apply Ok_inj in H. cbn zeta in H. fold (final_title c) in H.
    destruct (nonempty (final_title c)) eqn:E; [right|now left].
    subst rows'. eexists. split; [reflexivity|].
    split; [apply getitem6_title|now apply nonempty_true].
  - unfold card_step in H. rewrite Ep in H. discriminate.
Qed.

(** X19.  The title of every row of a run is stripped: it is not empty and
    neither starts nor ends with whitespace, whether it came from a
    [title] attribute, from the text of a node or from an [alt] text. *)
Theorem titles_are_stripped (start end_ : Z) (rs : list dict) :
  scrape_pages' start end_ = Ok rs ->
  forall r, In r rs ->
    exists t,
      getitem r k_title = Ok (VStr t)
      /\ t <> []
      /\ strip t = t
      /\ no_leading_space t /\ no_trailing_space t.
Proof.
  intros Hrun.
  apply Forall_forall.
  eapply scrape_rows_invariant
    with (P := fun r => exists t, getitem r k_title = Ok (VStr t) /\ t <> []
                                  /\ strip t = t
                                  /\ no_leading_space t /\ no_trailing_space t);
    [|exact Hrun].
  intros i page_url rows c rows' Hc Hrows.
  apply card_step_title in Hc as [->|(d & -> & Ht & Hne)]; [assumption|].
  apply Forall_app. split; [assumption|]. constructor; [|constructor].
  destruct (final_title_edges c) as [Hl Htr].
  exists (final_title c). repeat split; auto. now apply strip_fix.
Qed.

End Titles.

(** ** The entries of the types field *)

Lemma char_in_In (c : char) (s : str) : char_in c s = true <-> In c s.
Proof.
  unfold char_in. rewrite existsb_exists. split.
  - intros (y & Hy & E). apply N.eqb_eq in E. now subst.
  - intros H. exists c. split; [assumption|apply N.eqb_refl].
Qed.

Lemma lstrip_In (p : char -> bool) (s : str) (c : char) :
  In c (lstrip_by p s) -> In c s.
Proof.
  induction s as [|x s IH]; cbn [lstrip_by]; [easy|].
  destruct (p x); [intros H; right; now apply IH|easy].
Qed.

Lemma strip_In (s : str) (c : char) : In c (strip s) -> In c s.
Proof.
  unfold strip, strip_by, rstrip_by. intros H.
  apply in_rev, lstrip_In, in_rev in H. now apply lstrip_In in H.
Qed.

Lemma normalise_semicolon (t : str) :
  In 59%N (normalise t) -> In 59%N t.
Proof.
  unfold normalise, replace_char. intros H.
  apply strip_In, in_map_iff in H as (y & Hy & Hin).
  destruct (char_eqb y 10%N) eqn:E; [discriminate|]. now subst.
Qed.

Lemma split_without_separator (c : char) (x : str) :
  ~ In c x -> split c x = [x].
Proof.
  induction x as [|y x IH]; intros H; cbn [split]; [reflexivity|].
  destruct (char_eqb y c) eqn:E.
  - apply N.eqb_eq in E. subst. exfalso. apply H. now left.
  - rewrite IH; [reflexivity|]. intros Hin. apply H. now right.
Qed.

Lemma split_at_separator (c : char) (x rest : str) :
  ~ In c x -> split c (x ++ c :: rest) = x :: split c rest.
Proof.
  induction x as [|y x IH]; intros H; cbn [app split].
  - unfold char_eqb. now rewrite N.eqb_refl.
  - destruct (char_eqb y c) eqn:E.
    + apply N.eqb_eq in E. subst. exfalso. apply H. now left.
    + rewrite IH; [reflexivity|]. intros Hin. apply H. now right.
Qed.

(** Splitting undoes joining when no entry holds the separator. *)
Lemma split_join (c : char) (l : list str) :
  l <> [] -> (forall x, In x l -> ~ In c x) ->
  split c (join [c] l) = l.
Proof.
  induction l as [|x l IH]; intros Hne Hall; [congruence|].
  destruct l as [|y l].
  - cbn [join]. apply split_without_separator, Hall. now left.
  - change (join [c] (x :: y :: l)) with (x ++ c :: join [c] (y :: l)).
    rewrite split_at_separator by (apply Hall; now left).
    f_equal. apply IH; [discriminate|].
    intros z Hz. apply Hall. now right.
Qed.

Lemma types_loop_In (card : Tag) (sels : list selector) (x : str) :
  In x (types_loop card sels []) ->
  exists s, In s (descendants card) /\ get_text s = x.
Proof.
  induction sels as [|sel sels IH]; [intros []|].
  rewrite types_loop_cons.
  destruct (texts (select card sel)) as [|y l] eqn:E; [exact IH|].
  rewrite <- E. unfold texts. intros H.
  apply filter_In in H as [H _]. apply in_map_iff in H as (s & <- & Hs).
  apply select_In in Hs as [Hs _]. eauto.
Qed.

Lemma heuristic_scan_In (isalpha : char -> bool) (card : Tag) (x : str) :
  In x (heuristic_scan isalpha card) ->
  exists s, In s (descendants card) /\ get_text s = x.
Proof.
  rewrite heuristic_scan_filter. intros H.
  apply filter_In in H as [H _]. apply in_map_iff in H as (s & <- & Hs).
  unfold find_all_limit in Hs. apply firstn_In, find_all_In in Hs as [Hs _].
  eauto.
Qed.

Section Types.

Variable isalpha : char -> bool.
Variable lower : str -> str.
Variable bracketed_netloc_ok : str -> bool.
Variable nfkc : str -> str.

Local Abbreviation parse_movie_card' :=
  (parse_movie_card isalpha lower bracketed_netloc_ok nfkc).

Lemma found_types_In (card : Tag) (x : str) :
  In x (found_types isalpha card) ->
  exists s, In s (descendants card) /\ get_text s = x.
Proof.
  unfold found_types.
  destruct (types_loop card type_selectors []) as [|y l] eqn:E.
  - apply heuristic_scan_In.
  - rewrite <- E. apply types_loop_In.
Qed.

Lemma clean_types_entry (types_found : list str) (e : str) :
  In e (clean_types lower types_found) ->
  e <> [] /\ strip e = e /\ ~ In (lower e) noise_tokens
  /\ exists raw, In raw types_found /\ e = normalise raw.
Proof.
  rewrite clean_types_filter, filter_In, in_map_iff.
  intros ((raw & <- & Hraw) & Hkeep).
  apply andb_true_iff in Hkeep as [Hne Hnoise].
  split; [now apply nonempty_true|]. split; [|split; [|eauto]].
  - apply strip_fix; [apply strip_no_leading|apply strip_no_trailing].
  - intros Hin. apply str_in_In in Hin. rewrite Hin in Hnoise. discriminate.
Qed.

(** X20.  When no element of the container has a [;] in its text, the
    types field splits back, at [;], into the entries it was joined from:
    unless it is empty, its parts are pairwise distinct, none is empty,
    none starts or ends with whitespace, and none is, in lower case, one
    of the noise tokens. *)
Theorem types_split_into_distinct_clean_entries
        (card : Tag) (page_url : str) (d : dict) :
  parse_movie_card' card page_url = Ok d ->
  (forall s, In s (descendants card) -> char_in 59%N (get_text s) = false) ->
  exists ty,
    getitem d k_types = Ok (VStr ty)
    /\ (ty = []
        \/ (NoDup (split 59%N ty)
            /\ forall e, In e (split 59%N ty) ->
                 e <> [] /\ strip e = e /\ ~ In (lower e) noise_tokens)).
Proof.
  intros Hparse Hsemi.
  destruct (parse_movie_card_shape _ _ _ _ _ _ Hparse)
    as (t & im & du & -> & _ & _).
  exists (types_value isalpha lower card).
  split; [apply getitem5_types|].
  unfold types_value.
  destruct (found_types isalpha card) as [|x l] eqn:Ef; [now left|].
  rewrite <- Ef.
  set (entries := fromkeys (clean_types lower (found_types isalpha card))).
  assert (Hentry : forall e, In e entries ->
            e <> [] /\ strip e = e /\ ~ In (lower e) noise_tokens
            /\ ~ In 59%N e).
  { intros e He. apply (proj1 (fromkeys_In _ _)) in He.
    destruct (clean_types_entry _ _ He) as (Hne & Hs & Hn & raw & Hraw & ->).
    repeat split; auto.
    intros Hin. apply normalise_semicolon in Hin.
    destruct (found_types_In _ _ Hraw) as (s & Hs' & <-).
    apply char_in_In in Hin. rewrite (Hsemi s Hs') in Hin. discriminate. }
  destruct entries as [|e0 entries'] eqn:Ee; [now left|]. right.
  change (lit ";") with [59%N].
  rewrite split_join; [|discriminate|intros e He; now apply Hentry].
  split.
  - rewrite <- Ee. apply fromkeys_NoDup.
  - intros e He. destruct (Hentry e He) as (? & ? & ? & _). auto.
Qed.

End Types.

(* ===================================================================== *)
(** * The further properties on the sample markup and the sample site *)
(* ===================================================================== *)

Local Abbreviation sample_card_step :=
  (card_step Sample.isalpha Sample.lower Sample.bracketed_netloc_ok Sample.nfkc).
Local Abbreviation sample_urljoin :=
  (urljoin Sample.bracketed_netloc_ok Sample.nfkc).

Lemma title_is_first_nonempty_candidate_witness :
  Sample.parse (Sample.top_tag Sample.card_h2_title) = Ok Sample.parsed_h2_title
  /\ getitem Sample.parsed_h2_title k_title = Ok (VStr (lit "Le Mans 66")).
Proof.
  assert (Hparse : Sample.parse (Sample.top_tag Sample.card_h2_title)
                   = Ok Sample.parsed_h2_title) by (vm_compute; reflexivity).
  split; [exact Hparse|].
  destruct (@title_is_first_nonempty_candidate
              Sample.isalpha Sample.lower Sample.bracketed_netloc_ok Sample.nfkc
              (Sample.top_tag Sample.card_h2_title) (page_url_of 1)
              Sample.parsed_h2_title Hparse) as [Hfirst _].
  eapply (Hfirst [] [tag "h2"] (tl title_selectors)).
  - reflexivity.
  - intros s n [].
  - vm_compute. reflexivity.
  - vm_compute. reflexivity.
  - vm_compute. discriminate.
Defined.

Lemma detail_url_comes_from_first_a_href_witness :
  Sample.parse (Sample.top_tag Sample.card_leon) = Ok Sample.parsed_leon
  /\ select_one (Sample.top_tag Sample.card_leon) [tag_attr "a" "href"]
     = Some Sample.leon_anchor
  /\ exists href,
       get Sample.leon_anchor (lit "href") = Some href
       /\ sample_urljoin BASE href
          = Ok (lit "https://ssr1.scrape.center/detail/2").
Proof.
  assert (Hparse : Sample.parse (Sample.top_tag Sample.card_leon)
                   = Ok Sample.parsed_leon) by (vm_compute; reflexivity).
  assert (Hsel : select_one (Sample.top_tag Sample.card_leon)
                            [tag_attr "a" "href"] = Some Sample.leon_anchor)
    by (vm_compute; reflexivity).
  split; [exact Hparse|]. split; [exact Hsel|].
  destruct (@detail_url_comes_from_first_a_href
              Sample.isalpha Sample.lower Sample.bracketed_netloc_ok Sample.nfkc
              (Sample.top_tag Sample.card_leon) (page_url_of 1)
              Sample.parsed_leon Hparse) as (du & Hdu & Hlink).
  rewrite Hsel in Hlink. destruct Hlink as (href & Hhref & Hjoin).
  exists href. split; [exact Hhref|].
  rewrite Hjoin. vm_compute in Hdu. injection Hdu as <-.
  vm_compute. reflexivity.
Defined.

Lemma image_url_comes_from_first_img_witness :
  Sample.parse (Sample.top_tag Sample.card_lazy) = Ok Sample.parsed_lazy
  /\ find (Sample.top_tag Sample.card_lazy) (lit "img") = Some Sample.lazy_img
  /\ get Sample.lazy_img (lit "src") = Some []
  /\ getitem Sample.parsed_lazy k_image_url
     = Ok (VStr (lit "https://ssr1.scrape.center/img/lazy.jpg")).
Proof.
  assert (Hparse : Sample.parse (Sample.top_tag Sample.card_lazy)
                   = Ok Sample.parsed_lazy) by (vm_compute; reflexivity).
  assert (Hfind : find (Sample.top_tag Sample.card_lazy) (lit "img")
                  = Some Sample.lazy_img) by (vm_compute; reflexivity).
  assert (Hsrc : get Sample.lazy_img (lit "src") = Some [])
    by (vm_compute; reflexivity).
  assert (Hdata : get Sample.lazy_img (lit "data-src")
                  = Some (47%N :: lit "img/lazy.jpg"))
    by (vm_compute; reflexivity).
  split; [exact Hparse|]. split; [exact Hfind|]. split; [exact Hsrc|].
  destruct (@image_url_comes_from_first_img
              Sample.isalpha Sample.lower Sample.bracketed_netloc_ok Sample.nfkc
              (Sample.top_tag Sample.card_lazy) (page_url_of 1)
              Sample.parsed_lazy Hparse) as (im & Him & _ & Himg).
  destruct (Himg _ Hfind) as (_ & Hlazy & _).
  pose proof (Hlazy _ _ (or_intror Hsrc) Hdata) as Hjoin.
  vm_compute in Hjoin. injection Hjoin as <-. rewrite Him.
  vm_compute. reflexivity.
Defined.

Lemma parse_movie_card_raises_only_from_urljoin_witness :
  Sample.parse (Sample.top_tag Sample.card_bad_href) = Raise ValueError
  /\ exists raw, sample_urljoin BASE raw = Raise ValueError.
Proof.
  assert (Hparse : Sample.parse (Sample.top_tag Sample.card_bad_href)
                   = Raise ValueError) by (vm_compute; reflexivity).
  split; [exact Hparse|].
  exact (proj2 (@parse_movie_card_raises_only_from_urljoin
                  Sample.isalpha Sample.lower Sample.bracketed_netloc_ok
                  Sample.nfkc (Sample.top_tag Sample.card_bad_href)
                  (page_url_of 1) ValueError Hparse)).
Defined.

Lemma first_matching_card_selector_wins_witness :
  find_cards (document Sample.two_cards)
  = select (document Sample.two_cards) [cls "card"].
Proof.
  apply (@first_matching_card_selector_wins
           (document Sample.two_cards)
           (firstn 3 card_selectors) [cls "card"] (skipn 4 card_selectors)).
  - reflexivity.
  - intros s [<-|[<-|[<-|[]]]]; vm_compute; reflexivity.
  - vm_compute. discriminate.
Defined.

Lemma cards_are_elements_of_the_page_witness :
  In (hd (document []) Sample.two_cards_found)
     (descendants (document Sample.two_cards)).
Proof.
  apply cards_are_elements_of_the_page. vm_compute. left. reflexivity.
Defined.

Lemma heuristic_scan_is_bounded_witness :
  List.length (heuristic_scan Sample.isalpha
                              (Sample.top_tag Sample.card_long_span)) <= 6
  /\ heuristic_accept Sample.isalpha Sample.long_cjk = true.
Proof.
  destruct (heuristic_scan_is_bounded
              Sample.isalpha (Sample.top_tag Sample.card_long_span))
    as [Hlen Hall].
  split; [exact Hlen|].
  apply (Hall Sample.long_cjk). vm_compute. left. reflexivity.
Defined.

Lemma empty_title_falls_back_to_img_alt_witness :
  Sample.parse (Sample.top_tag Sample.card_alt_only) = Ok Sample.parsed_alt_only
  /\ getitem Sample.parsed_alt_only k_title = Ok (VStr [])
  /\ sample_card_step 7 (page_url_of 7) [] (Sample.top_tag Sample.card_alt_only)
     = Ok [setitem (setitem Sample.parsed_alt_only k_page (VInt 7)) k_title
                   (VStr (lit "Seven"))].
Proof.
  assert (Hparse : Sample.parse (Sample.top_tag Sample.card_alt_only)
                   = Ok Sample.parsed_alt_only) by (vm_compute; reflexivity).
  assert (Htitle : getitem Sample.parsed_alt_only k_title = Ok (VStr []))
    by (vm_compute; reflexivity).
  split; [exact Hparse|]. split; [exact Htitle|].
  destruct (@empty_title_falls_back_to_img_alt
              Sample.isalpha Sample.lower Sample.bracketed_netloc_ok Sample.nfkc
              7%Z (page_url_of 7) [] (Sample.top_tag Sample.card_alt_only)
              Sample.parsed_alt_only Hparse Htitle) as [Halt _].
  eapply eq_trans.
  - eapply Halt.
    + vm_compute. reflexivity.
    + vm_compute. reflexivity.
    + vm_compute. discriminate.
  - vm_compute. reflexivity.
Defined.

Lemma titled_container_adds_its_record_witness :
  Sample.parse (Sample.top_tag Sample.card_year) = Ok Sample.parsed_year
  /\ sample_card_step 1 (page_url_of 1) [] (Sample.top_tag Sample.card_year)
     = Ok [setitem Sample.parsed_year k_page (VInt 1)].
Proof.
  assert (Hparse : Sample.parse (Sample.top_tag Sample.card_year)
                   = Ok Sample.parsed_year) by (vm_compute; reflexivity).
  split; [exact Hparse|].
  apply (@titled_container_adds_its_record
           Sample.isalpha Sample.lower Sample.bracketed_netloc_ok Sample.nfkc
           1%Z (page_url_of 1) [] (Sample.top_tag Sample.card_year)
           Sample.parsed_year (lit "Alien") Hparse).
  - vm_compute. reflexivity.
  - vm_compute. discriminate.
Defined.

Lemma at_most_one_row_per_container_witness :
  exists rows' new,
    for_each (sample_card_step 1 (page_url_of 1)) Sample.two_cards_found []
    = Ok rows'
    /\ rows' = [] ++ new
    /\ List.length new <= List.length Sample.two_cards_found.
Proof.
  assert (Hrun : exists rows',
            for_each (sample_card_step 1 (page_url_of 1))
                     Sample.two_cards_found [] = Ok rows')
    by (eexists; vm_compute; reflexivity).
  destruct Hrun as [rows' Hrun].
  destruct (@at_most_one_row_per_container
              Sample.isalpha Sample.lower Sample.bracketed_netloc_ok Sample.nfkc
              _ _ _ _ _ Hrun) as (new & Hnew & Hlen).
  exists rows', new. auto.
Defined.

Lemma rows_are_in_page_order_witness :
  Sample.scrape 1 5 = Ok Sample.rows_1_5
  /\ exists pages,
       map (fun r => getitem r k_page) Sample.rows_1_5
       = map (fun i => Ok (VInt i)) pages
       /\ StronglySorted Z.le pages
       /\ Forall (fun i => (1 <= i <= 5)%Z) pages.
Proof.
  assert (Hrun : Sample.scrape 1 5 = Ok Sample.rows_1_5)
    by (vm_compute; reflexivity).
  split; [exact Hrun|].
  exact (@rows_are_in_page_order
           Sample.requests_get Sample.html_parser Sample.isalpha Sample.lower
           Sample.bracketed_netloc_ok Sample.nfkc 1 5 _ Hrun).
Defined.

Lemma empty_range_does_nothing_witness :
  Sample.run 5 1 = Ok (mkState [] []) /\ Sample.scrape 5 1 = Ok [].
Proof.
  apply (@empty_range_does_nothing
           Sample.requests_get Sample.html_parser Sample.isalpha Sample.lower
           Sample.bracketed_netloc_ok Sample.nfkc 5 1).
  lia.
Defined.

Lemma each_page_is_fetched_once_witness :
  Sample.run 1 5 = Ok Sample.state_1_5
  /\ trace Sample.state_1_5
     = flat_map (page_events Sample.requests_get) (range 1 (5 + 1)).
Proof.
  assert (Hrun : Sample.run 1 5 = Ok Sample.state_1_5)
    by (vm_compute; reflexivity).
  split; [exact Hrun|].
  exact (@each_page_is_fetched_once
           Sample.requests_get Sample.html_parser Sample.isalpha Sample.lower
           Sample.bracketed_netloc_ok Sample.nfkc 1 5 _ Hrun).
Defined.

Lemma run_raises_only_from_parser_or_urljoin_witness :
  scrape_pages Sample.nested_get Sample.bad_parser Sample.isalpha Sample.lower
               Sample.bracketed_netloc_ok Sample.nfkc 1 1 = Raise ValueError
  /\ exists i html,
       (1 <= i <= 1)%Z
       /\ fetch Sample.nested_get (page_url_of i) = Some html /\ html <> []
       /\ (Sample.bad_parser html = Raise ValueError
           \/ exists top c,
                Sample.bad_parser html = Ok top
                /\ In c (find_cards (document top))
                /\ parse_movie_card Sample.isalpha Sample.lower
                                    Sample.bracketed_netloc_ok Sample.nfkc
                                    c (page_url_of i) = Raise ValueError
                /\ ValueError = ValueError).
Proof.
  assert (Hrun : scrape_pages Sample.nested_get Sample.bad_parser
                              Sample.isalpha Sample.lower
                              Sample.bracketed_netloc_ok Sample.nfkc 1 1
                 = Raise ValueError) by (vm_compute; reflexivity).
  split; [exact Hrun|].
  exact (@run_raises_only_from_parser_or_urljoin
           Sample.nested_get Sample.bad_parser Sample.isalpha
           Sample.lower Sample.bracketed_netloc_ok Sample.nfkc
           1 1 ValueError Hrun).
Defined.

(** With a parser that rejects the body, the run ends with the parser's
    exception. *)
Lemma sample_rejected_markup :
  scrape_pages Sample.nested_get Sample.rejecting_parser Sample.isalpha
               Sample.lower Sample.bracketed_netloc_ok Sample.nfkc 1 1
  = Raise ParserRejectedMarkup.
Proof. vm_compute. reflexivity. Qed.

Lemma run_without_any_page_returns_nothing_witness :
  Sample.scrape 3 3 = Ok [].
Proof.
  apply (@run_without_any_page_returns_nothing
           Sample.requests_get Sample.html_parser Sample.isalpha Sample.lower
           Sample.bracketed_netloc_ok Sample.nfkc 3 3).
  intros i Hi. assert (Hi3 : i = 3%Z) by lia. subst i.
  left. vm_compute. reflexivity.
Defined.

Lemma main_writes_nothing_without_pages_witness :
  main Sample.offline Sample.html_parser Sample.isalpha Sample.lower
       Sample.bracketed_netloc_ok Sample.nfkc = Ok None.
Proof.
  apply (@main_writes_nothing_without_pages
           Sample.offline Sample.html_parser Sample.isalpha Sample.lower
           Sample.bracketed_netloc_ok Sample.nfkc).
  intros i Hi. reflexivity.
Defined.

Lemma page_urls_are_distinct_witness :
  page_url_of 2 = page_url_of (1 + 1) /\ (2 = 1 + 1)%Z.
Proof.
  assert (H : page_url_of 2 = page_url_of (1 + 1)) by reflexivity.
  split; [exact H|]. exact (@page_urls_are_distinct 2%Z (1 + 1)%Z H).
Defined.

Lemma save_csv_writes_the_schema_witness :
  exists out,
    save_csv Sample.rows_1_5 = Some (fieldnames, out)
    /\ List.length out = 4.
Proof.
  destruct (save_csv_writes_the_schema Sample.rows_1_5) as [_ Hsome].
  assert (Hs : save_csv Sample.rows_1_5
               = Some (fieldnames, map csv_row Sample.rows_1_5))
    by reflexivity.
  destruct (Hsome _ _ Hs) as (_ & Hlen & _).
  eexists. split; [exact Hs|]. rewrite Hlen. reflexivity.
Defined.

Lemma titles_are_stripped_witness :
  Sample.scrape 1 5 = Ok Sample.rows_1_5
  /\ In Sample.row_leon Sample.rows_1_5
  /\ exists t,
       getitem Sample.row_leon k_title = Ok (VStr t)
       /\ t <> [] /\ strip t = t
       /\ no_leading_space t /\ no_trailing_space t.
Proof.
  assert (Hrun : Sample.scrape 1 5 = Ok Sample.rows_1_5)
    by (vm_compute; reflexivity).
  assert (Hin : In Sample.row_leon Sample.rows_1_5)
    by (right; left; reflexivity).
  split; [exact Hrun|]. split; [exact Hin|].
  exact (@titles_are_stripped
           Sample.requests_get Sample.html_parser Sample.isalpha Sample.lower
           Sample.bracketed_netloc_ok Sample.nfkc 1 5 _ Hrun _ Hin).
Defined.

Lemma types_split_into_distinct_clean_entries_witness :
  Sample.parse (Sample.top_tag Sample.card_three_types)
  = Ok Sample.parsed_three_types
  /\ getitem Sample.parsed_three_types k_types = Ok (VStr (lit "Drama;Action"))
  /\ split 59%N (lit "Drama;Action") = [lit "Drama"; lit "Action"]
  /\ exists ty,
       getitem Sample.parsed_three_types k_types = Ok (VStr ty)
       /\ (ty = []
           \/ (NoDup (split 59%N ty)
               /\ forall e, In e (split 59%N ty) ->
                    e <> [] /\ strip e = e
                    /\ ~ In (Sample.lower e) noise_tokens)).
Proof.
  assert (Hparse : Sample.parse (Sample.top_tag Sample.card_three_types)
                   = Ok Sample.parsed_three_types)
    by (vm_compute; reflexivity).
  split; [exact Hparse|].
  split; [vm_compute; reflexivity|]. split; [vm_compute; reflexivity|].
  apply (@types_split_into_distinct_clean_entries
           Sample.isalpha Sample.lower Sample.bracketed_netloc_ok Sample.nfkc
           (Sample.top_tag Sample.card_three_types) (page_url_of 1)
           Sample.parsed_three_types Hparse).
  intros s Hs. vm_compute in Hs.
  destruct Hs as [<-|[<-|[<-|[<-|[]]]]]; vm_compute; reflexivity.
Defined.
